(** * itep-rn-scheduling: the slot-discovery and concurrent-booking pipeline

    A shallow embedding of [main.go].  The remote service, the JSON codec and
    the clock are the environment; everything the scheduler itself decides
    (filtering, collecting, selecting, the booking request, the admission
    gate, the aggregation of results) is written out as the Go code has it. *)

From Stdlib Require Import ZArith Ascii String List Permutation Lia Bool.
From stdpp Require Import base option list gmap strings pretty sorting.

Open Scope string_scope.
Open Scope list_scope.
Open Scope Z_scope.

(** ** Go values *)

(** A Go [error].  [fmt.Errorf("...: %w", err)] is [Wrapped]; an error that
    comes out of the standard library (net/http, io, encoding/json, time) is
    [LibError]. *)
Inductive error : Type :=
| LibError (msg : string)
| Message (msg : string)
| Wrapped (prefix : string) (cause : error)
| HTTPError (status : Z) (body : string)
| NotSuccessful (agendou : Z).

(** A Go [(T, error)] pair in which exactly one side is meaningful. *)
Inductive result (A : Type) : Type :=
| Ok (a : A)
| Err (e : error).
Arguments Ok {A} a.
Arguments Err {A} e.

(** What a call does: it returns, or it panics at run time. *)
Inductive outcome (A : Type) : Type :=
| Returned (a : A)
| Panicked (msg : string).
Arguments Returned {A} a.
Arguments Panicked {A} msg.

(** ** The data model (the struct declarations of main.go)

    [Location.ID], [Order.Location] and [Config.Location] are renamed
    ([LocationID], [OrderLocation], [ConfigLocation]) because Rocq record
    projections share one name space. *)

Record Config : Type := {
  ConfigLocation : string;
  AppointmentCount : Z;
  ScheduleTime : string;
  BaseURL : string
}.

Record Location : Type := {
  LocationID : Z;
  Nome : string
}.

Record Order : Type := {
  ID : Z;
  DataInicio : string;
  DataFim : string;
  VagasCount : string;
  OrderLocation : Location
}.

Record BookingRequest : Type := {
  IDOrdem : Z;
  Data : string;
  Hora : string
}.

Record BookingResponse : Type := {
  CodigoVaga : string;
  Agendou : Z
}.

Record TimeSlot : Type := {
  OrderID : Z;
  Date : string;
  Time : string
}.

Record BookingResult : Type := {
  response : BookingResponse;
  err : option error
}.

(** [BookingResponse{}] and the zero [BookingResult] of [make]. *)
Definition zeroBookingResponse : BookingResponse :=
  {| CodigoVaga := ""; Agendou := 0 |}.

Definition zeroBookingResult : BookingResult :=
  {| response := zeroBookingResponse; err := None |}.

(** ** Calendar dates: [time.Parse("2006-01-02", _)] and [Time.Format]

    The scheduler only ever parses the layout [2006-01-02] and prints the
    layouts [2006-01-02T15:04:05.000Z] and [Mon, 02 Jan 2006]; the behaviour
    of the time package on these is written out here. *)

Record GoTime : Type := {
  Year : Z; Month : Z; Day : Z;
  Hour : Z; Minute : Z; Second : Z; Nanosecond : Z
}.

Definition isDigit (c : ascii) : bool :=
  (48 <=? Z.of_N (N_of_ascii c)) && (Z.of_N (N_of_ascii c) <=? 57).

Definition digitVal (c : ascii) : Z := Z.of_N (N_of_ascii c) - 48.

Definition digitChar (d : Z) : ascii := ascii_of_N (Z.to_N (48 + d)).

Definition isLeap (year : Z) : bool :=
  (year mod 4 =? 0) && (negb (year mod 100 =? 0) || (year mod 400 =? 0)).

Definition daysIn (m year : Z) : Z :=
  if m =? 2 then (if isLeap year then 29 else 28)
  else if (m =? 4) || (m =? 6) || (m =? 9) || (m =? 11) then 30
  else 31.

(** [time.Parse("2006-01-02", s)]: four digits, a dash, two digits, a dash,
    two digits and nothing else; the month in 1..12 and the day within the
    month. *)
Definition parseDate (s : string) : result GoTime :=
  match s with
  | String y0 (String y1 (String y2 (String y3 (String sep1
      (String m0 (String m1 (String sep2 (String d0 (String d1 EmptyString))))))))) =>
      if isDigit y0 && isDigit y1 && isDigit y2 && isDigit y3
         && Ascii.eqb sep1 "-"%char && isDigit m0 && isDigit m1
         && Ascii.eqb sep2 "-"%char && isDigit d0 && isDigit d1
      then
        let year := 1000 * digitVal y0 + 100 * digitVal y1
                    + 10 * digitVal y2 + digitVal y3 in
        let month := 10 * digitVal m0 + digitVal m1 in
        let day := 10 * digitVal d0 + digitVal d1 in
        if (1 <=? month) && (month <=? 12) then
          if (1 <=? day) && (day <=? daysIn month year) then
            Ok {| Year := year; Month := month; Day := day;
                  Hour := 0; Minute := 0; Second := 0; Nanosecond := 0 |}
          else Err (LibError "parsing time: day out of range")
        else Err (LibError "parsing time: month out of range")
      else Err (LibError "parsing time: cannot parse")
  | _ => Err (LibError "parsing time: cannot parse")
  end.

(** [time.Date(y, m, d, hour, 0, 0, 0, time.UTC)] on fields that are already
    a valid calendar date (which is all [parseDate] returns): no
    normalisation takes place. *)
Definition timeDate (year month day hour minute sec nsec : Z) : GoTime :=
  {| Year := year; Month := month; Day := day;
     Hour := hour; Minute := minute; Second := sec; Nanosecond := nsec |}.

Definition pad2 (n : Z) : string :=
  String (digitChar (n / 10)) (String (digitChar (n mod 10)) EmptyString).

Definition pad3 (n : Z) : string :=
  String (digitChar (n / 100)) (pad2 (n mod 100)).

Definition pad4 (n : Z) : string :=
  String (digitChar (n / 1000)) (pad3 (n mod 1000)).

(** [t.Format("2006-01-02")] *)
Definition formatISODate (t : GoTime) : string :=
  pad4 (Year t) +:+ "-" +:+ pad2 (Month t) +:+ "-" +:+ pad2 (Day t).

(** [t.Format("2006-01-02T15:04:05.000Z")]: the trailing [Z] is a literal
    and [.000] prints the milliseconds. *)
Definition formatBookingDate (t : GoTime) : string :=
  formatISODate t +:+ "T" +:+ pad2 (Hour t) +:+ ":" +:+ pad2 (Minute t)
  +:+ ":" +:+ pad2 (Second t) +:+ "." +:+ pad3 (Nanosecond t / 1000000) +:+ "Z".

(** [t.Weekday()], Sunday = 0, on the proleptic Gregorian calendar. *)
Definition weekday (t : GoTime) : Z :=
  let y := if Month t <? 3 then Year t - 1 else Year t in
  let off := nth (Z.to_nat (Month t - 1)) [0; 3; 2; 5; 0; 3; 5; 1; 4; 6; 2; 4] 0 in
  (y + y / 4 - y / 100 + y / 400 + off + Day t) mod 7.

Definition shortDayName (d : Z) : string :=
  nth (Z.to_nat d) ["Sun"; "Mon"; "Tue"; "Wed"; "Thu"; "Fri"; "Sat"] "".

Definition shortMonthName (m : Z) : string :=
  nth (Z.to_nat (m - 1))
      ["Jan"; "Feb"; "Mar"; "Apr"; "May"; "Jun";
       "Jul"; "Aug"; "Sep"; "Oct"; "Nov"; "Dec"] "".

(** [t.Format("Mon, 02 Jan 2006")] *)
Definition formatRFC1123Date (t : GoTime) : string :=
  shortDayName (weekday t) +:+ ", " +:+ pad2 (Day t) +:+ " "
  +:+ shortMonthName (Month t) +:+ " " +:+ pad4 (Year t).

(** [t.AddDate(0, 0, 1)] *)
Definition addDay (t : GoTime) : GoTime :=
  if Day t <? daysIn (Month t) (Year t) then
    timeDate (Year t) (Month t) (Day t + 1) (Hour t) (Minute t) (Second t) (Nanosecond t)
  else if Month t <? 12 then
    timeDate (Year t) (Month t + 1) 1 (Hour t) (Minute t) (Second t) (Nanosecond t)
  else
    timeDate (Year t + 1) 1 1 (Hour t) (Minute t) (Second t) (Nanosecond t).

(** ** [fmt] and [net/url] *)

(** [%d] *)
Definition itoa (n : Z) : string := pretty n.

Definition hexDigit (n : N) : ascii :=
  if (n <? 10)%N then ascii_of_N (48 + n) else ascii_of_N (55 + n).

Definition unreserved (c : ascii) : bool :=
  let n := Z.of_N (N_of_ascii c) in
  ((65 <=? n) && (n <=? 90)) || ((97 <=? n) && (n <=? 122))
  || ((48 <=? n) && (n <=? 57))
  || (n =? 45) || (n =? 95) || (n =? 46) || (n =? 126).

(** [url.QueryEscape] *)
Fixpoint queryEscape (s : string) : string :=
  match s with
  | EmptyString => EmptyString
  | String c rest =>
      if unreserved c then String c (queryEscape rest)
      else if Ascii.eqb c " "%char then String "+"%char (queryEscape rest)
      else String "%"%char
             (String (hexDigit (N_of_ascii c / 16))
                (String (hexDigit (N_of_ascii c mod 16)) (queryEscape rest)))
  end.

(** ** Slice expressions *)

(** [s[:n]] on a string: the first [n] bytes, and a run-time panic when the
    string has fewer. *)
Definition slicePrefix (s : string) (n : nat) : outcome string :=
  if (String.length s <? n)%nat
  then Panicked "slice bounds out of range"
  else Returned (substring 0 n s).

(** ** The environment: HTTP client, JSON codec, clock, [sort.Slice] *)

Inductive Request : Type :=
| GET (url : string)
| POST (url contentType body : string).

(** What [httpClient.Get]/[Post] followed by [io.ReadAll(resp.Body)] can
    give: the call itself fails, or a response arrives whose body may still
    fail to be read. *)
Inductive HttpResult : Type :=
| HttpFailed (cause : error)
| HttpReply (StatusCode : Z) (body : result string).

Record Exchange : Type := {
  request : Request;
  reply : HttpResult
}.

(** [W] is the state of everything outside the process (the remote service,
    the network, the wall clock).  An HTTP call is a transition of it. *)
Record Env (W : Type) : Type := {
  roundTrip : Request -> W -> HttpResult * W;
  now : W -> GoTime;
  unmarshalOrders : string -> result (list Order);
  unmarshalStrings : string -> result (list string);
  unmarshalBookingResponse : string -> result BookingResponse;
  marshalBookingRequest : BookingRequest -> result string
}.
Arguments roundTrip {W} _ _ _.
Arguments now {W} _ _.
Arguments unmarshalOrders {W} _ _.
Arguments unmarshalStrings {W} _ _.
Arguments unmarshalBookingResponse {W} _ _.
Arguments marshalBookingRequest {W} _ _.

(** The state the scheduler runs in: the outside world, every HTTP exchange
    made so far in order ([wire]), and the lines printed with
    [fmt.Println] ([stdout]).  [log.Printf] lines go to standard error and
    are left out. *)
Record State (W : Type) : Type := {
  world : W;
  wire : list Exchange;
  stdout : list string
}.
Arguments world {W} _.
Arguments wire {W} _.
Arguments stdout {W} _.

Definition http_StatusOK : Z := 200.

(** ** The scheduler

    [Scheduler] is [{config, httpClient}]: inside the section [config] is
    [s.config] and [env] stands for [s.httpClient] and the packages the
    methods call. *)
Section Scheduler.

Context {W : Type}.
Variable env : Env W.
Variable config : Config.

(** [sort.Slice(allSlots, less)] with [less] comparing the [Time] fields.
    It belongs to Go's standard library; what the library promises is that
    the slice ends up a permutation of itself, ordered by [less]; it does not
    promise a stable sort. *)
Variable sortSlice : list TimeSlot -> list TimeSlot.

(** One HTTP round trip, recorded on the wire. *)
Definition send (req : Request) (st : State W) : HttpResult * State W :=
  let '(r, w') := roundTrip env req (world st) in
  (r, {| world := w';
         wire := wire st ++ [{| request := req; reply := r |}];
         stdout := stdout st |}).

Definition println (line : string) (st : State W) : State W :=
  {| world := world st; wire := wire st; stdout := stdout st ++ [line] |}.

(** The loop of [getNextWorkingDay]: from a Saturday two steps reach Monday,
    so two iterations are all the loop can ever make. *)
Fixpoint skipWeekend (fuel : nat) (t : GoTime) : GoTime :=
  match fuel with
  | O => t
  | S fuel' =>
      if (weekday t =? 6) || (weekday t =? 0)
      then skipWeekend fuel' (addDay t)
      else t
  end.

Definition getNextWorkingDay (st : State W) : GoTime :=
  let tomorrow := addDay (now env (world st)) in
  skipWeekend 2 tomorrow.

Definition getAvailableOrders (st : State W) : result (list Order) * State W :=
  let targetDate := getNextWorkingDay st in
  let url := BaseURL config +:+ "/ordens/public?data_inicial="
             +:+ formatISODate targetDate +:+ "&data_final="
             +:+ formatISODate targetDate in
  match send (GET url) st with
  | (HttpFailed e, st1) => (Err (Wrapped "HTTP request failed" e), st1)
  | (HttpReply _ (Err e), st1) => (Err (Wrapped "failed to read response" e), st1)
  | (HttpReply _ (Ok body), st1) =>
      match unmarshalOrders env body with
      | Err e => (Err (Wrapped "failed to parse JSON" e), st1)
      | Ok orders => (Ok orders, st1)
      end
  end.

Definition getAvailableDates (orderID : Z) (st : State W)
  : result (list string) * State W :=
  let url := BaseURL config +:+ "/ordens/public/datas?ordem=" +:+ itoa orderID in
  match send (GET url) st with
  | (HttpFailed e, st1) => (Err e, st1)
  | (HttpReply _ (Err e), st1) => (Err e, st1)
  | (HttpReply _ (Ok body), st1) =>
      match unmarshalStrings env body with
      | Err e => (Err e, st1)
      | Ok dates => (Ok dates, st1)
      end
  end.

Definition getAvailableTimes (orderID : Z) (dateStr : string) (st : State W)
  : result (list string) * State W :=
  match parseDate dateStr with
  | Err e => (Err e, st)
  | Ok date =>
      let formattedDate := formatRFC1123Date date +:+ " 03:00:00 GMT" in
      let encodedDate := queryEscape formattedDate in
      let apiURL := BaseURL config +:+ "/vagas/horas?ordem=" +:+ itoa orderID
                    +:+ "&data=" +:+ encodedDate in
      match send (GET apiURL) st with
      | (HttpFailed e, st1) => (Err e, st1)
      | (HttpReply _ (Err e), st1) => (Err e, st1)
      | (HttpReply status (Ok body), st1) =>
          if negb (status =? http_StatusOK)
          then (Err (HTTPError status body), st1)
          else
            match unmarshalStrings env body with
            | Err e => (Err (Wrapped "failed to parse JSON response" e), st1)
            | Ok times => (Ok times, st1)
            end
      end
  end.

(** [bookAppointment]: the Go pair [(BookingResponse, error)] is kept as a
    pair; [slot.Time[:5]] is [slicePrefix (Time slot) 5]. *)
Definition bookAppointment (slot : TimeSlot) (st : State W)
  : outcome (BookingResponse * option error) * State W :=
  match parseDate (Date slot) with
  | Err e =>
      (Returned (zeroBookingResponse, Some (Wrapped "invalid date format" e)), st)
  | Ok date =>
      let utcDate := timeDate (Year date) (Month date) (Day date) 3 0 0 0 in
      match slicePrefix (Time slot) 5 with
      | Panicked msg => (Panicked msg, st)
      | Returned timeParts =>
        let request := {| IDOrdem := OrderID slot;
                          Data := formatBookingDate utcDate;
                          Hora := timeParts |} in
        match marshalBookingRequest env request with
        | Err e =>
            (Returned (zeroBookingResponse,
                       Some (Wrapped "failed to marshal request" e)), st)
        | Ok requestBody =>
            let url := BaseURL config +:+ "/vagas" in
            match send (POST url "application/json" requestBody) st with
            | (HttpFailed e, st1) =>
                (Returned (zeroBookingResponse,
                           Some (Wrapped "HTTP request failed" e)), st1)
            | (HttpReply _ (Err e), st1) =>
                (Returned (zeroBookingResponse,
                           Some (Wrapped "failed to read response" e)), st1)
            | (HttpReply status (Ok responseBody), st1) =>
                if negb (status =? http_StatusOK)
                then (Returned (zeroBookingResponse,
                                Some (HTTPError status responseBody)), st1)
                else
                  match unmarshalBookingResponse env responseBody with
                  | Err e =>
                      (Returned (zeroBookingResponse,
                                 Some (Wrapped "failed to parse response" e)), st1)
                  | Ok bookingResponse =>
                      if negb (Agendou bookingResponse =? 1)
                      then (Returned (zeroBookingResponse,
                                      Some (NotSuccessful (Agendou bookingResponse))),
                            st1)
                      else (Returned (bookingResponse, None), st1)
                  end
            end
        end
      end
  end.

(** The inner loop of [collectAllTimeSlots] that looks for the target date. *)
Fixpoint dateFound (targetDateStr : string) (dates : list string) : bool :=
  match dates with
  | [] => false
  | dateStr :: rest =>
      if String.eqb dateStr targetDateStr then true
      else dateFound targetDateStr rest
  end.

(** The loop that appends one slot per returned time string. *)
Fixpoint appendSlots (orderID : Z) (targetDateStr : string)
    (times : list string) (allSlots : list TimeSlot) : list TimeSlot :=
  match times with
  | [] => allSlots
  | timeStr :: rest =>
      appendSlots orderID targetDateStr rest
        (allSlots ++ [{| OrderID := orderID; Date := targetDateStr; Time := timeStr |}])
  end.

(** One iteration of the [for _, order := range orders] loop: a [continue]
    hands [allSlots] on as it is. *)
Definition collectOrder (targetDateStr : string) (order : Order)
    (allSlots : list TimeSlot) (st : State W) : list TimeSlot * State W :=
  match getAvailableDates (ID order) st with
  | (Err _, st1) => (allSlots, st1)
  | (Ok dates, st1) =>
      if negb (dateFound targetDateStr dates)
      then (allSlots, st1)
      else
        match getAvailableTimes (ID order) targetDateStr st1 with
        | (Err _, st2) => (allSlots, st2)
        | (Ok times, st2) =>
            (appendSlots (ID order) targetDateStr times allSlots, st2)
        end
  end.

Fixpoint collectLoop (targetDateStr : string) (orders : list Order)
    (allSlots : list TimeSlot) (st : State W) : list TimeSlot * State W :=
  match orders with
  | [] => (allSlots, st)
  | order :: rest =>
      let '(allSlots1, st1) := collectOrder targetDateStr order allSlots st in
      collectLoop targetDateStr rest allSlots1 st1
  end.

Definition collectAllTimeSlots (orders : list Order) (st : State W)
  : (list TimeSlot * option error) * State W :=
  let targetDate := getNextWorkingDay st in
  let targetDateStr := formatISODate targetDate in
  let '(allSlots, st1) := collectLoop targetDateStr orders [] st in
  ((sortSlice allSlots, None), st1).

(** [usedTimes[slot.Time]] on a Go map reads [false] for a missing key. *)
Definition usedTime (usedTimes : gmap string bool) (t : string) : bool :=
  default false (usedTimes !! t).

Fixpoint selectLoop (allSlots : list TimeSlot) (usedTimes : gmap string bool)
    (selectedSlots : list TimeSlot) : list TimeSlot :=
  match allSlots with
  | [] => selectedSlots
  | slot :: rest =>
      if negb (usedTime usedTimes (Time slot))
         && (Z.of_nat (length selectedSlots) <? AppointmentCount config)
      then selectLoop rest (<[Time slot := true]> usedTimes) (selectedSlots ++ [slot])
      else selectLoop rest usedTimes selectedSlots
  end.

Definition selectUniqueSlots (allSlots : list TimeSlot) : list TimeSlot :=
  selectLoop allSlots ∅ [].

(** *** [bookAppointmentsConcurrently]

    One goroutine per slot.  A goroutine is at one of four points: blocked on
    [semaphore <- struct{}{}]; holding a token with its [bookAppointment]
    call in flight; back from the call with the result not yet stored; or
    finished (result stored in [results[index]], token given back by the
    deferred receive, [wg.Done()] called).  The goroutines interleave in any
    order; one transition is one goroutine moving to its next point. *)

Inductive TaskPC : Type :=
| Blocked
| InFlight
| Storing (r : BookingResult)
| Finished.

Record Task : Type := {
  timeSlot : TimeSlot;
  pc : TaskPC
}.

Record Pool : Type := {
  outer : State W;
  semaphore : nat;
  tasks : list Task;
  results : list BookingResult;
  crashed : option string
}.

(** [make(chan struct{}, 5)] *)
Definition semaphoreCap : nat := 5.

Definition setPC (i : nat) (t : Task) (c : TaskPC) (ts : list Task) : list Task :=
  <[i := {| timeSlot := timeSlot t; pc := c |}]> ts.

(** The state right after the [for i, slot := range slots] loop has started
    every goroutine. *)
Definition spawn (slots : list TimeSlot) (st : State W) : Pool :=
  {| outer := st;
     semaphore := 0;
     tasks := (fun slot => {| timeSlot := slot; pc := Blocked |}) <$> slots;
     results := replicate (length slots) zeroBookingResult;
     crashed := None |}.

(** Goroutine [i] takes its next step, when it can.  A panic inside
    [bookAppointment] runs the deferred receive (the token goes back) and
    then brings the whole process down. *)
Definition stepTask (i : nat) (p : Pool) : option Pool :=
  match crashed p with
  | Some _ => None
  | None =>
      match tasks p !! i with
      | None => None
      | Some t =>
          match pc t with
          | Blocked =>
              if (semaphore p <? semaphoreCap)%nat
              then Some {| outer := outer p;
                           semaphore := S (semaphore p);
                           tasks := setPC i t InFlight (tasks p);
                           results := results p;
                           crashed := None |}
              else None
          | InFlight =>
              match bookAppointment (timeSlot t) (outer p) with
              | (Returned (response, err), st1) =>
                  Some {| outer := st1;
                          semaphore := semaphore p;
                          tasks := setPC i t
                                     (Storing {| response := response; err := err |})
                                     (tasks p);
                          results := results p;
                          crashed := None |}
              | (Panicked msg, st1) =>
                  Some {| outer := st1;
                          semaphore := pred (semaphore p);
                          tasks := setPC i t Finished (tasks p);
                          results := results p;
                          crashed := Some msg |}
              end
          | Storing r =>
              Some {| outer := outer p;
                      semaphore := pred (semaphore p);
                      tasks := setPC i t Finished (tasks p);
                      results := <[i := r]> (results p);
                      crashed := None |}
          | Finished => None
          end
      end
  end.

Inductive step : Pool -> Pool -> Prop :=
| step_task (i : nat) (p p' : Pool) : stepTask i p = Some p' -> step p p'.

Inductive steps : Pool -> Pool -> Prop :=
| steps_refl (p : Pool) : steps p p
| steps_more (p q r : Pool) : steps p q -> step q r -> steps p r.

(** A schedule is the list of goroutines picked by the Go scheduler, in
    order; a pick of a goroutine that cannot move is a pick that did not
    happen. *)
Fixpoint run (sched : list nat) (p : Pool) : Pool :=
  match sched with
  | [] => p
  | i :: rest =>
      match stepTask i p with
      | Some p' => run rest p'
      | None => run rest p
      end
  end.

Definition firstEnabled (p : Pool) : option nat :=
  List.find (fun i => bool_decide (is_Some (stepTask i p)))
            (seq 0 (length (tasks p))).

(** When the schedule is used up the goroutines that are left run to the
    end, lowest index first. *)
Fixpoint drain (fuel : nat) (p : Pool) : Pool :=
  match fuel with
  | O => p
  | S fuel' =>
      match firstEnabled p with
      | None => p
      | Some i =>
          match stepTask i p with
          | Some p' => drain fuel' p'
          | None => p
          end
      end
  end.

Definition pcWeight (c : TaskPC) : nat :=
  match c with
  | Blocked => 3
  | InFlight => 2
  | Storing _ => 1
  | Finished => 0
  end.

(** [wg.Wait()] lets the caller go on once every goroutine has finished. *)
Definition bookAppointmentsConcurrently (sched : list nat)
    (slots : list TimeSlot) (st : State W)
  : outcome (list BookingResult) * State W :=
  let p := drain (3 * length slots) (run sched (spawn slots st)) in
  match crashed p with
  | Some msg => (Panicked msg, outer p)
  | None => (Returned (results p), outer p)
  end.

(** *** [runScheduling] *)

(** [for _, order := range orders] keeping the orders of the configured
    location. *)
Fixpoint targetOrdersLoop (orders targetOrders : list Order) : list Order :=
  match orders with
  | [] => targetOrders
  | order :: rest =>
      if String.eqb (Nome (OrderLocation order)) (ConfigLocation config)
      then targetOrdersLoop rest (targetOrders ++ [order])
      else targetOrdersLoop rest targetOrders
  end.

(** [for i, result := range bookingResults] counting the successes. *)
Fixpoint tallyLoop (bookingResults : list BookingResult) (successCount : Z)
    (successfulBookings : list BookingResponse) : Z * list BookingResponse :=
  match bookingResults with
  | [] => (successCount, successfulBookings)
  | result :: rest =>
      match err result with
      | Some _ => tallyLoop rest successCount successfulBookings
      | None =>
          tallyLoop rest (successCount + 1) (successfulBookings ++ [response result])
      end
  end.

Definition bookingLink (booking : BookingResponse) : string :=
  "https://agendamento.itep.rn.gov.br/public/agendamento/"
  +:+ CodigoVaga booking +:+ "/agendar".

Fixpoint printLinks (successfulBookings : list BookingResponse) (st : State W)
  : State W :=
  match successfulBookings with
  | [] => st
  | booking :: rest => printLinks rest (println (bookingLink booking) st)
  end.

Definition runScheduling (sched : list nat) (st : State W)
  : outcome (option error) * State W :=
  match getAvailableOrders st with
  | (Err e, st1) => (Returned (Some (Wrapped "failed to get orders" e)), st1)
  | (Ok orders, st1) =>
      let targetOrders := targetOrdersLoop orders [] in
      if (length targetOrders =? 0)%nat
      then (Returned (Some (Message
              "no orders available for specified location on target date")), st1)
      else
        match collectAllTimeSlots targetOrders st1 with
        | ((_, Some e), st2) =>
            (Returned (Some (Wrapped "failed to collect time slots" e)), st2)
        | ((allSlots, None), st2) =>
            if (length allSlots =? 0)%nat
            then (Returned (Some (Message "no time slots available")), st2)
            else
              let slotsToBook := selectUniqueSlots allSlots in
              if (length slotsToBook =? 0)%nat
              then (Returned (Some (Message "no unique slots available")), st2)
              else
                match bookAppointmentsConcurrently sched slotsToBook st2 with
                | (Panicked msg, st3) => (Panicked msg, st3)
                | (Returned bookingResults, st3) =>
                    let '(successCount, successfulBookings) :=
                      tallyLoop bookingResults 0 [] in
                    if successCount =? 0
                    then (Returned (Some (Message "all booking attempts failed")), st3)
                    else (Returned None, printLinks successfulBookings st3)
                end
        end
  end.

End Scheduler.

(** ** [sort.Slice]

    [less] is the closure of [collectAllTimeSlots]:
    [allSlots[i].Time < allSlots[j].Time], byte-wise on the strings. *)
Definition lessTime (a b : TimeSlot) : bool := String.ltb (Time a) (Time b).

(** [sort.SliceIsSorted]: no element is less than the one before it. *)
Definition notAfter (a b : TimeSlot) : Prop := lessTime b a = false.

(** What the sort package documents for [sort.Slice]. *)
Definition SortSliceSpec (sortSlice : list TimeSlot -> list TimeSlot) : Prop :=
  forall l, Permutation (sortSlice l) l /\ Sorted notAfter (sortSlice l).

(** A sort that also keeps slots of equal time in their original order
    (what [sort.SliceStable] would promise). *)
Definition StableSort (sortSlice : list TimeSlot -> list TimeSlot) : Prop :=
  forall l t,
    filter (fun s => Time s = t) (sortSlice l) = filter (fun s => Time s = t) l.

(** Insertion sort as [sort.Slice] runs it on short slices: an element moves
    left while it is less than its left neighbour, so it settles after the
    elements equal to it. *)
Fixpoint insertAfterEqual (x : TimeSlot) (l : list TimeSlot) : list TimeSlot :=
  match l with
  | [] => [x]
  | y :: rest =>
      if lessTime x y then x :: y :: rest else y :: insertAfterEqual x rest
  end.

Definition insertionSort (l : list TimeSlot) : list TimeSlot :=
  fold_left (fun sorted x => insertAfterEqual x sorted) l [].

(** Another sort within the documented contract: an element settles before
    the elements equal to it. *)
Fixpoint insertBeforeEqual (x : TimeSlot) (l : list TimeSlot) : list TimeSlot :=
  match l with
  | [] => [x]
  | y :: rest =>
      if lessTime y x then y :: insertBeforeEqual x rest else x :: y :: rest
  end.

Definition tieReversingSort (l : list TimeSlot) : list TimeSlot :=
  fold_left (fun sorted x => insertBeforeEqual x sorted) l [].

(** The first slot of a list with a given time-of-day. *)
Definition firstWithTime (t : string) (l : list TimeSlot) : option TimeSlot :=
  List.find (fun s => String.eqb (Time s) t) l.

(** ** A test double of the remote service

    The outside world is the list of booking bodies the service has already
    accepted; a body is accepted once.  The codec is a toy one (comma
    separated lists), enough to drive the scheduler end to end. *)
Module Mock.

Record Offer : Type := {
  order : Order;
  datesReply : HttpResult;
  timesReply : HttpResult
}.

Definition base : string := "http://itep.test/api".

Definition config (location : string) (count : Z) : Config :=
  {| ConfigLocation := location; AppointmentCount := count;
     ScheduleTime := "08:00"; BaseURL := base |}.

(** Friday 7 June 2024, so the next working day is Monday 10 June 2024. *)
Definition friday : GoTime :=
  {| Year := 2024; Month := 6; Day := 7;
     Hour := 12; Minute := 0; Second := 0; Nanosecond := 0 |}.

Definition ordersURL : string :=
  base +:+ "/ordens/public?data_inicial=2024-06-10&data_final=2024-06-10".

Definition datesURL (p : Offer) : string :=
  base +:+ "/ordens/public/datas?ordem=" +:+ itoa (ID (order p)).

Definition timesURL (p : Offer) : string :=
  base +:+ "/vagas/horas?ordem=" +:+ itoa (ID (order p))
  +:+ "&data=Mon%2C+10+Jun+2024+03%3A00%3A00+GMT".

Definition notFound : HttpResult := HttpReply 404 (Ok "not found").

Definition serveGet (table : list Offer) (url : string) : HttpResult :=
  if String.eqb url ordersURL then HttpReply 200 (Ok "orders")
  else
    match List.find (fun p => String.eqb url (datesURL p)) table with
    | Some p => datesReply p
    | None =>
        match List.find (fun p => String.eqb url (timesURL p)) table with
        | Some p => timesReply p
        | None => notFound
        end
    end.

Definition hasSuffix (suffix s : string) : bool :=
  let n := String.length s in
  let k := String.length suffix in
  (k <=? n)%nat && String.eqb (substring (n - k) k s) suffix.

(** A booking at 23:59 is refused with HTTP 500; a body booked before gets
    [agendou = 0]; anything else is booked. *)
Definition servePost (body : string) (booked : list string)
  : HttpResult * list string :=
  if hasSuffix "23:59" body then (HttpReply 500 (Ok "internal error"), booked)
  else if existsb (String.eqb body) booked then (HttpReply 200 (Ok "NO"), booked)
  else (HttpReply 200 (Ok ("OK:" +:+ body)), body :: booked).

Definition serve (table : list Offer) (req : Request) (booked : list string)
  : HttpResult * list string :=
  match req with
  | GET url => (serveGet table url, booked)
  | POST url _ body =>
      if String.eqb url (base +:+ "/vagas") then servePost body booked
      else (notFound, booked)
  end.

Fixpoint splitComma (s acc : string) : list string :=
  match s with
  | EmptyString => [acc]
  | String c rest =>
      if Ascii.eqb c ","%char then acc :: splitComma rest ""
      else splitComma rest (acc +:+ String c EmptyString)
  end.

Definition decodeStrings (body : string) : result (list string) :=
  if String.eqb body "" then Ok []
  else if String.prefix "<" body then Err (LibError "invalid character")
  else Ok (splitComma body "").

Definition decodeBookingResponse (body : string) : result BookingResponse :=
  if String.prefix "OK:" body
  then Ok {| CodigoVaga := substring 3 (String.length body - 3) body; Agendou := 1 |}
  else if String.eqb body "NO" then Ok {| CodigoVaga := ""; Agendou := 0 |}
  else Err (LibError "invalid character").

Definition env (table : list Offer) : Env (list string) :=
  {| roundTrip := serve table;
     now := fun _ => friday;
     unmarshalOrders := fun body =>
       if String.eqb body "orders" then Ok (order <$> table)
       else Err (LibError "invalid character");
     unmarshalStrings := decodeStrings;
     unmarshalBookingResponse := decodeBookingResponse;
     marshalBookingRequest := fun r =>
       Ok (itoa (IDOrdem r) +:+ "/" +:+ Data r +:+ "/" +:+ Hora r) |}.

Definition start : State (list string) :=
  {| world := []; wire := []; stdout := [] |}.

Definition mkOrder (id : Z) (location : string) : Order :=
  {| ID := id; DataInicio := "2024-06-10"; DataFim := "2024-06-10";
     VagasCount := "3";
     OrderLocation := {| LocationID := id; Nome := location |} |}.

Definition open (id : Z) (location dates times : string) : Offer :=
  {| order := mkOrder id location;
     datesReply := HttpReply 200 (Ok dates);
     timesReply := HttpReply 200 (Ok times) |}.

Definition slot (id : Z) (time : string) : TimeSlot :=
  {| OrderID := id; Date := "2024-06-10"; Time := time |}.


(** Order 1 at NATAL offers 09:00 twice and 10:00; order 2 is elsewhere. *)
Definition natal : list Offer :=
  [open 1 "NATAL" "2024-06-10" "09:00:00,09:00:00,10:00:00";
   open 2 "OTHER" "2024-06-10" "08:00:00"].

(** Order 2 cannot be looked up; orders 1 and 3 can. *)
Definition flaky : list Offer :=
  [open 1 "NATAL" "2024-06-10" "09:00:00,10:00:00";
   {| order := mkOrder 2 "NATAL";
      datesReply := HttpFailed (LibError "connection reset by peer");
      timesReply := notFound |};
   open 3 "NATAL" "2024-06-10,2024-06-11" "08:30:00"].

(** No order can be looked up. *)
Definition dark : list Offer :=
  [{| order := mkOrder 1 "NATAL";
      datesReply := HttpFailed (LibError "connection reset by peer");
      timesReply := notFound |};
   {| order := mkOrder 2 "NATAL";
      datesReply := HttpReply 200 (Ok "2024-06-10");
      timesReply := HttpReply 503 (Ok "unavailable") |}].

(** Thirteen slots over two orders; 09:00 is offered by both. *)
Definition ties : list Offer :=
  [open 1 "NATAL" "2024-06-10"
     "08:00:00,11:00:00,09:00:00,08:30:00,08:40:00,08:50:00,10:00:00";
   open 2 "NATAL" "2024-06-10"
     "12:10:00,12:20:00,12:00:00,12:30:00,12:40:00,09:00:00"].

End Mock.

(** ** Vocabulary of the statements *)

(** An exchange on the wire is the booking request of [slot]: a POST to
    [{base}/vagas] whose body is the encoding of a request with the slot's
    order, the slot's date at 03:00 UTC and the first five bytes of the
    slot's time. *)
Definition bookingPostFor {W : Type} (env : Env W) (config : Config)
    (slot : TimeSlot) (ev : Exchange) : Prop :=
  exists (req : BookingRequest) (body : string),
    request ev = POST (BaseURL config +:+ "/vagas") "application/json" body
    /\ marshalBookingRequest env req = Ok body
    /\ IDOrdem req = OrderID slot
    /\ Data req = Date slot +:+ "T03:00:00.000Z"
    /\ Hora req = substring 0 5 (Time slot)
    /\ String.length (Hora req) = 5%nat.

(** Time-of-day strings compare byte-wise, as Go's [<] on strings does. *)
Definition timeLt (a b : string) : Prop := String.ltb a b = true.

(** The slots of a list whose time-of-day has not occurred before them (nor
    in [seen]), in list order: what a selection without a limit keeps. *)
Fixpoint distinctTimes (seen : gset string) (l : list TimeSlot) : list TimeSlot :=
  match l with
  | [] => []
  | s :: rest =>
      if decide (Time s ∈ seen) then distinctTimes seen rest
      else s :: distinctTimes ({[Time s]} ∪ seen) rest
  end.

(** A slot on which [bookAppointment] panics: the date parses, so the slice
    expression [slot.Time[:5]] is reached, and the time is too short for it. *)
Definition panics (slot : TimeSlot) : Prop :=
  (exists date : GoTime, parseDate (Date slot) = Ok date)
  /\ (String.length (Time slot) < 5)%nat.

(** Counting goroutines by the point they are at. *)
Fixpoint tally (g : TaskPC -> nat) (ts : list Task) : nat :=
  match ts with
  | [] => 0
  | t :: rest => g (pc t) + tally g rest
  end.

Definition holdsToken (c : TaskPC) : nat :=
  match c with
  | InFlight | Storing _ => 1
  | Blocked | Finished => 0
  end.

Definition callInFlight (c : TaskPC) : nat :=
  match c with
  | InFlight => 1
  | _ => 0
  end.

(** Booking calls in flight, and tokens of the admission gate that are out. *)
Definition inFlight {W : Type} (p : @Pool W) : nat := tally callInFlight (tasks p).
Definition tokensOut {W : Type} (p : @Pool W) : nat := tally holdsToken (tasks p).

(** [r] is what a [bookAppointment] call on [slot] returned at some moment of
    the execution that started from [spawn slots st]. *)
Definition outcomeOf {W : Type} (env : Env W) (config : Config)
    (slots : list TimeSlot) (st : State W) (slot : TimeSlot) (r : BookingResult)
  : Prop :=
  exists q : Pool,
    steps env config (spawn slots st) q
    /\ (bookAppointment env config slot (outer q)).1 = Returned (response r, err r).

(** The lookups of [collectAllTimeSlots] for [order] fail in state [st]: the
    dates call errors, or it offers the target date and the times call
    errors. *)
Definition lookupFails {W : Type} (env : Env W) (config : Config)
    (targetDateStr : string) (order : Order) (st : State W) : Prop :=
  (exists e st1, getAvailableDates env config (ID order) st = (Err e, st1))
  \/ (exists dates st1 e st2,
        getAvailableDates env config (ID order) st = (Ok dates, st1)
        /\ dateFound targetDateStr dates = true
        /\ getAvailableTimes env config (ID order) targetDateStr st1 = (Err e, st2)).

(** The slots one order contributes: one per time string, in order. *)
Definition slotsOf (orderID : Z) (targetDateStr : string) (times : list string)
  : list TimeSlot :=
  (fun timeStr => {| OrderID := orderID; Date := targetDateStr; Time := timeStr |})
    <$> times.

(** The ways a run ends in an error. *)
Inductive Fatal : Type :=
| FetchFailed (cause : error)
| NoOrdersForLocation
| NoTimeSlots
| NoUniqueSlots
| AllBookingsFailed.

Definition fatalError (f : Fatal) : error :=
  match f with
  | FetchFailed cause => Wrapped "failed to get orders" cause
  | NoOrdersForLocation =>
      Message "no orders available for specified location on target date"
  | NoTimeSlots => Message "no time slots available"
  | NoUniqueSlots => Message "no unique slots available"
  | AllBookingsFailed => Message "all booking attempts failed"
  end.

Definition succeeded (b : BookingResult) : Prop := err b = None.

#[global] Instance succeeded_dec (b : BookingResult) : Decision (succeeded b).
Proof. unfold succeeded. destruct (err b); [right; discriminate | left; reflexivity]. Defined.

Definition atLocation (config : Config) (order : Order) : Prop :=
  Nome (OrderLocation order) = ConfigLocation config.

#[global] Instance atLocation_dec (config : Config) (order : Order)
  : Decision (atLocation config order).
Proof. unfold atLocation. apply _. Defined.


Section PoolVocabulary.

Context {W : Type}.
Variable env : Env W.
Variable config : Config.

(** What one step of goroutine [i] can be. *)
Inductive Move (i : nat) (p p' : @Pool W) : Prop :=
| MoveAcquire (t : Task) :
    tasks p !! i = Some t -> pc t = Blocked ->
    (semaphore p < semaphoreCap)%nat ->
    p' = {| outer := outer p; semaphore := S (semaphore p);
            tasks := setPC i t InFlight (tasks p);
            results := results p; crashed := None |} ->
    Move i p p'
| MoveReturn (t : Task) (response : BookingResponse) (err : option error)
    (st1 : State W) :
    tasks p !! i = Some t -> pc t = InFlight ->
    bookAppointment env config (timeSlot t) (outer p) = (Returned (response, err), st1) ->
    p' = {| outer := st1; semaphore := semaphore p;
            tasks := setPC i t (Storing {| response := response; err := err |}) (tasks p);
            results := results p; crashed := None |} ->
    Move i p p'
| MovePanic (t : Task) (msg : string) (st1 : State W) :
    tasks p !! i = Some t -> pc t = InFlight ->
    bookAppointment env config (timeSlot t) (outer p) = (Panicked msg, st1) ->
    p' = {| outer := st1; semaphore := pred (semaphore p);
            tasks := setPC i t Finished (tasks p);
            results := results p; crashed := Some msg |} ->
    Move i p p'
| MoveStore (t : Task) (r : BookingResult) :
    tasks p !! i = Some t -> pc t = Storing r ->
    p' = {| outer := outer p; semaphore := pred (semaphore p);
            tasks := setPC i t Finished (tasks p);
            results := <[i := r]> (results p); crashed := None |} ->
    Move i p p'.

(** What holds of every state the pool can reach from [spawn slots st0]. *)
Record PoolInv (slots : list TimeSlot) (st0 : State W) (p : @Pool W) : Prop := {
  inv_slots : timeSlot <$> tasks p = slots;
  inv_results : length (results p) = length slots;
  inv_tokens : semaphore p = tokensOut p;
  inv_cap : (semaphore p <= semaphoreCap)%nat;
  inv_storing : forall i t r,
      tasks p !! i = Some t -> pc t = Storing r ->
      outcomeOf env config slots st0 (timeSlot t) r;
  inv_finished : crashed p = None ->
      forall i t, tasks p !! i = Some t -> pc t = Finished ->
      exists r, results p !! i = Some r
                /\ outcomeOf env config slots st0 (timeSlot t) r
}.

End PoolVocabulary.

(** A calendar date: a month of the year and a day of that month. *)
Definition validDate (t : GoTime) : Prop :=
  1 <= Month t <= 12 /\ 1 <= Day t <= daysIn (Month t) (Year t).

(** Goroutines whose booking call has not come back yet. *)
Definition callPending (c : TaskPC) : nat :=
  match c with
  | Blocked | InFlight => 1
  | Storing _ | Finished => 0
  end.

Definition isGET (ev : Exchange) : Prop :=
  match request ev with
  | GET _ => True
  | POST _ _ _ => False
  end.

Definition isPOST (ev : Exchange) : Prop :=
  match request ev with
  | GET _ => False
  | POST _ _ _ => True
  end.

(** The body [bookAppointment] would send for a slot whose date parses and
    whose time has its five bytes. *)
Definition bookingBody {W : Type} (env : Env W) (slot : TimeSlot) : result string :=
  marshalBookingRequest env
    {| IDOrdem := OrderID slot;
       Data := Date slot +:+ "T03:00:00.000Z";
       Hora := substring 0 5 (Time slot) |}.

(** The two lookups of [collectAllTimeSlots] for one order. *)
Definition datesLookup (config : Config) (orderID : Z) : Request :=
  GET (BaseURL config +:+ "/ordens/public/datas?ordem=" +:+ itoa orderID).

Definition timesLookup (config : Config) (orderID : Z) (date : GoTime) : Request :=
  GET (BaseURL config +:+ "/vagas/horas?ordem=" +:+ itoa orderID +:+ "&data="
       +:+ queryEscape (formatRFC1123Date date +:+ " 03:00:00 GMT")).

(** The reply to a dates lookup offers the target date: its body, whatever
    the status, decodes to a list that holds it. *)
Definition offers {W : Type} (env : Env W) (targetDateStr : string) (r : HttpResult)
  : Prop :=
  exists (status : Z) (body : string) (dates : list string),
    r = HttpReply status (Ok body)
    /\ unmarshalStrings env body = Ok dates
    /\ targetDateStr ∈ dates.

(** The exchanges [collectAllTimeSlots] makes for one order: the dates
    lookup, followed by the times lookup when the target date is offered. *)
Definition lookupsOf {W : Type} (env : Env W) (config : Config)
    (targetDateStr : string) (order : Order) (g : list Exchange) : Prop :=
  exists r1,
    (g = [{| request := datesLookup config (ID order); reply := r1 |}]
     /\ (~ offers env targetDateStr r1 \/ exists e, parseDate targetDateStr = Err e))
    \/ (exists date r2,
          offers env targetDateStr r1
          /\ parseDate targetDateStr = Ok date
          /\ g = [{| request := datesLookup config (ID order); reply := r1 |};
                  {| request := timesLookup config (ID order) date; reply := r2 |}]).

(** * Properties *)

(** ** Dates *)

Lemma isDigit_range (c : ascii) :
  isDigit c = true -> 0 <= digitVal c <= 9 /\ digitChar (digitVal c) = c.
Proof.
  unfold isDigit, digitVal, digitChar. intros H.
  apply andb_true_iff in H as [Hlo Hhi].
  apply Z.leb_le in Hlo, Hhi. split; [lia|].
  replace (48 + (Z.of_N (N_of_ascii c) - 48)) with (Z.of_N (N_of_ascii c)) by lia.
  rewrite N2Z.id. apply ascii_N_embedding.
Qed.

Lemma pad2_digits (a b : Z) :
  0 <= a <= 9 -> 0 <= b <= 9 ->
  pad2 (10 * a + b) = String (digitChar a) (String (digitChar b) EmptyString).
Proof.
  intros Ha Hb. unfold pad2.
  assert ((10 * a + b) / 10 = a) as -> by (symmetry; apply Z.div_unique with b; lia).
  assert ((10 * a + b) mod 10 = b) as -> by (symmetry; apply Z.mod_unique with a; lia).
  reflexivity.
Qed.

Lemma pad4_digits (a b c d : Z) :
  0 <= a <= 9 -> 0 <= b <= 9 -> 0 <= c <= 9 -> 0 <= d <= 9 ->
  pad4 (1000 * a + 100 * b + 10 * c + d)
  = String (digitChar a) (String (digitChar b)
      (String (digitChar c) (String (digitChar d) EmptyString))).
Proof.
  intros Ha Hb Hc Hd. unfold pad4, pad3.
  assert ((1000 * a + 100 * b + 10 * c + d) / 1000 = a) as ->
    by (symmetry; apply Z.div_unique with (100 * b + 10 * c + d); lia).
  assert ((1000 * a + 100 * b + 10 * c + d) mod 1000 = 100 * b + 10 * c + d) as ->
    by (symmetry; apply Z.mod_unique with a; lia).
  assert ((100 * b + 10 * c + d) / 100 = b) as ->
    by (symmetry; apply Z.div_unique with (10 * c + d); lia).
  assert ((100 * b + 10 * c + d) mod 100 = 10 * c + d) as ->
    by (symmetry; apply Z.mod_unique with b; lia).
  rewrite pad2_digits by lia. reflexivity.
Qed.

(** A date that parses prints back as the very same string. *)
Lemma parseDate_formatISODate (s : string) (date : GoTime) :
  parseDate s = Ok date -> formatISODate date = s.
Proof.
  unfold parseDate.
  do 10 (destruct s as [|? s]; [discriminate|]).
  destruct s; [|discriminate].
  destruct (isDigit a) eqn:D0; [|discriminate].
  destruct (isDigit a0) eqn:D1; [|discriminate].
  destruct (isDigit a1) eqn:D2; [|discriminate].
  destruct (isDigit a2) eqn:D3; [|discriminate].
  destruct (Ascii.eqb a3 "-") eqn:S1; [|discriminate].
  destruct (isDigit a4) eqn:D4; [|discriminate].
  destruct (isDigit a5) eqn:D5; [|discriminate].
  destruct (Ascii.eqb a6 "-") eqn:S2; [|discriminate].
  destruct (isDigit a7) eqn:D6; [|discriminate].
  destruct (isDigit a8) eqn:D7; [|discriminate].
  cbn [andb].
  apply isDigit_range in D0 as [? E0], D1 as [? E1], D2 as [? E2], D3 as [? E3],
    D4 as [? E4], D5 as [? E5], D6 as [? E6], D7 as [? E7].
  apply Ascii.eqb_eq in S1, S2. subst a3 a6.
  destruct (_ && _); [|discriminate].
  destruct (_ && _); [|discriminate].
  intros [= <-]. unfold formatISODate. cbn [Year Month Day].
  rewrite pad4_digits, !pad2_digits by lia.
  rewrite E0, E1, E2, E3, E4, E5, E6, E7. reflexivity.
Qed.

Lemma formatBookingDate_0300 (year month day : Z) :
  formatBookingDate (timeDate year month day 3 0 0 0)
  = formatISODate (timeDate year month day 3 0 0 0) +:+ "T03:00:00.000Z".
Proof. reflexivity. Qed.

Lemma parseDate_bookingDate (s : string) (date : GoTime) :
  parseDate s = Ok date ->
  formatBookingDate (timeDate (Year date) (Month date) (Day date) 3 0 0 0)
  = s +:+ "T03:00:00.000Z".
Proof.
  intros H. rewrite formatBookingDate_0300.
  apply parseDate_formatISODate in H.
  change (formatISODate (timeDate (Year date) (Month date) (Day date) 3 0 0 0))
    with (formatISODate date).
  now rewrite H.
Qed.

Lemma length_substring_prefix (m : nat) (s : string) :
  (m <= String.length s)%nat -> String.length (substring 0 m s) = m.
Proof.
  revert s. induction m as [|m IH]; intros s Hm.
  - destruct s; reflexivity.
  - destruct s as [|c s]; cbn in *; [lia|]. rewrite IH; [reflexivity | lia].
Qed.

Lemma app_singleton_self_absurd {A : Type} (l : list A) (x : A) : l <> l ++ [x].
Proof.
  intros H. apply (f_equal length) in H. rewrite length_app in H. cbn in H. lia.
Qed.

(** ** The booking call *)
Section BookingFacts.

Context {W : Type}.
Variable env : Env W.
Variable config : Config.

(** Every path of [bookAppointment], taken apart once. *)
Ltac book_paths slot st :=
  unfold bookAppointment, send, slicePrefix;
  destruct (parseDate (Date slot)) as [date|perr] eqn:Hparse; cbn [fst snd];
  [ destruct (String.length (Time slot) <? 5)%nat eqn:Hlen; cbn [fst snd];
    [ | destruct (marshalBookingRequest env _) as [requestBody|merr] eqn:Hmarshal;
        cbn [fst snd];
        [ destruct (roundTrip env _ (world st)) as [[herr|status [responseBody|rerr]] w1]
            eqn:Hrt; cbn [fst snd wire];
          [ | destruct (status =? http_StatusOK) eqn:Hstatus; cbn [negb fst snd wire];
              [ destruct (unmarshalBookingResponse env responseBody)
                  as [decoded|uerr] eqn:Hdecode; cbn [fst snd wire];
                [ destruct (Agendou decoded =? 1) eqn:Hagendou; cbn [negb fst snd wire]
                | ]
              | ]
            | ]
        | ] ]
  | ].

(** C1. Whenever the remote call of a booking attempt answers HTTP 200 with a
    body that decodes to a BookingResponse whose [agendou] is not 1,
    [bookAppointment] returns an error ("booking was not successful"), and
    the tally of [runScheduling] does not count the attempt as a success. *)
Theorem bookAppointment_agendou_not_1_is_error
    (slot : TimeSlot) (st : State W) (req : Request) (body : string)
    (bookingResponse : BookingResponse) :
  wire (bookAppointment env config slot st).2
    = wire st ++ [{| request := req; reply := HttpReply 200 (Ok body) |}] ->
  unmarshalBookingResponse env body = Ok bookingResponse ->
  Agendou bookingResponse <> 1 ->
  (bookAppointment env config slot st).1
    = Returned (zeroBookingResponse, Some (NotSuccessful (Agendou bookingResponse)))
  /\ forall (rest : list BookingResult) (n : Z) (ok : list BookingResponse),
       tallyLoop ({| response := zeroBookingResponse;
                     err := Some (NotSuccessful (Agendou bookingResponse)) |} :: rest)
                 n ok
       = tallyLoop rest n ok.
Proof.
  intros Hwire Hbody Hne. split; [|reflexivity].
  revert Hwire. book_paths slot st; intros Hwire;
    try (exfalso; exact (app_singleton_self_absurd _ _ Hwire));
    apply app_inv_head in Hwire; simplify_eq.
  - apply Z.eqb_eq in Hagendou. congruence.
  - congruence.
  - congruence.
Qed.


(** [bookAppointment] panics exactly when the slot's date parses, so that
    the truncation is reached, and the time is shorter than 5 bytes. *)
Lemma bookAppointment_panics_iff (slot : TimeSlot) (st : State W) :
  (exists msg : string, (bookAppointment env config slot st).1 = Panicked msg)
  <-> panics slot.
Proof.
  unfold panics. book_paths slot st; split;
    try (intros [msg Hp]; discriminate Hp);
    try (intros [[d Hd] Hlt]; first
           [ discriminate Hd
           | apply Nat.ltb_ge in Hlen; lia ]).
  - intros _. split; [eauto|]. apply Nat.ltb_lt in Hlen. exact Hlen.
  - intros _. eauto.
Qed.

(** C9. The truncation [slot.Time[:5]] panics on every time string shorter
    than 5 bytes and on no other; with [len(slot.Time) >= 5] that branch is
    out of reach and [bookAppointment] never panics.  [bookAppointment] as a
    whole panics exactly when the slot's date parses (so that the truncation
    is reached) and the time is shorter than 5 bytes. *)
Theorem truncation_needs_5_bytes (slot : TimeSlot) (st : State W) :
  ((String.length (Time slot) < 5)%nat <->
     exists msg, slicePrefix (Time slot) 5 = Panicked msg)
  /\ ((5 <= String.length (Time slot))%nat ->
      slicePrefix (Time slot) 5 = Returned (substring 0 5 (Time slot))
      /\ forall msg, (bookAppointment env config slot st).1 <> Panicked msg)
  /\ ((exists msg, (bookAppointment env config slot st).1 = Panicked msg)
      <-> panics slot).
Proof.
  pose proof (bookAppointment_panics_iff slot st) as Hiff.
  split; [|split; [|exact Hiff]].
  - unfold slicePrefix. destruct (String.length (Time slot) <? 5)%nat eqn:Hlen.
    + apply Nat.ltb_lt in Hlen. split; eauto.
    + apply Nat.ltb_ge in Hlen. split; [lia|]. intros [msg Hp]. discriminate Hp.
  - intros Hlong. split.
    + unfold slicePrefix. apply Nat.ltb_ge in Hlong. rewrite Hlong. reflexivity.
    + intros msg Hp. assert (panics slot) as [_ Hshort] by (apply Hiff; eauto). lia.
Qed.

End BookingFacts.

(** ** The order on time-of-day strings *)

Lemma ltb_false_le (a b : string) : String.ltb b a = false <-> String.le a b.
Proof.
  unfold String.ltb, String.le, String.leb.
  rewrite (String.compare_antisym a b).
  destruct (String.compare b a); cbn; split; intros H;
    first [reflexivity | exact I | discriminate H | destruct H].
Qed.

Lemma le_neq_ltb (a b : string) : String.le a b -> a <> b -> timeLt a b.
Proof.
  unfold String.le, String.leb, timeLt, String.ltb. intros Hle Hne.
  destruct (String.compare a b) eqn:Hc; [|reflexivity|contradiction].
  apply String.compare_eq_iff in Hc. contradiction.
Qed.

Lemma ltb_le (a b : string) : timeLt a b -> String.le a b.
Proof.
  unfold String.le, String.leb, timeLt, String.ltb.
  destruct (String.compare a b); intros H; try discriminate H; exact I.
Qed.

Lemma ltb_neq (a b : string) : timeLt a b -> a <> b.
Proof.
  unfold timeLt, String.ltb. intros H ->.
  pose proof (String.compare_antisym b b) as Ha.
  destruct (String.compare b b); cbn in Ha; discriminate.
Qed.

Lemma notAfter_le (a b : TimeSlot) : notAfter a b <-> String.le (Time a) (Time b).
Proof. unfold notAfter, lessTime. apply ltb_false_le. Qed.

#[local] Instance notAfter_trans : Transitive notAfter.
Proof.
  intros a b c. rewrite !notAfter_le. intros H1 H2. etrans; eassumption.
Qed.

Lemma lessTime_notAfter (a b : TimeSlot) : lessTime a b = true -> notAfter a b.
Proof.
  intros H. apply notAfter_le, ltb_le. exact H.
Qed.

(** ** The selector *)
Section SelectionFacts.

Variable config : Config.

Lemma usedTime_insert (usedTimes : gmap string bool) (seen : gset string) (t : string) :
  (forall u, usedTime usedTimes u = true <-> u ∈ seen) ->
  forall u, usedTime (<[t := true]> usedTimes) u = true <-> u ∈ ({[t]} ∪ seen : gset string).
Proof.
  intros Hinv u. unfold usedTime. destruct (decide (t = u)) as [->|Hne].
  - rewrite lookup_insert_eq. cbn. split; [intros _|reflexivity].
    apply elem_of_union_l, elem_of_singleton. reflexivity.
  - rewrite lookup_insert_ne by assumption. fold (usedTime usedTimes u).
    rewrite Hinv, elem_of_union, elem_of_singleton. split; [auto|].
    intros [Heq|Hin]; [congruence|exact Hin].
Qed.

(** The loop keeps the first [AppointmentCount] slots whose time-of-day is
    new. *)
Lemma selectLoop_spec (allSlots : list TimeSlot) :
  forall (usedTimes : gmap string bool) (seen : gset string)
         (selectedSlots : list TimeSlot),
    (forall t, usedTime usedTimes t = true <-> t ∈ seen) ->
    selectLoop config allSlots usedTimes selectedSlots
    = selectedSlots
      ++ take (Z.to_nat (AppointmentCount config - Z.of_nat (length selectedSlots)))
              (distinctTimes seen allSlots).
Proof.
  induction allSlots as [|slot rest IH]; intros usedTimes seen sel Hinv; cbn.
  - rewrite take_nil, app_nil_r. reflexivity.
  - destruct (usedTime usedTimes (Time slot)) eqn:Hused; cbn [negb andb].
    + apply Hinv in Hused. rewrite decide_True by assumption. apply IH, Hinv.
    + assert (Time slot ∉ seen) as Hfresh.
      { intros Hin. apply Hinv in Hin. congruence. }
      rewrite decide_False by assumption.
      destruct (Z.of_nat (length sel) <? AppointmentCount config) eqn:Hroom.
      * apply Z.ltb_lt in Hroom.
        rewrite (IH _ ({[Time slot]} ∪ seen)) by (apply usedTime_insert, Hinv).
        rewrite length_app. cbn [length].
        replace (Z.to_nat (AppointmentCount config - Z.of_nat (length sel)))
          with (S (Z.to_nat (AppointmentCount config - Z.of_nat (length sel + 1))))
          by lia.
        cbn [take]. rewrite <- app_assoc. reflexivity.
      * apply Z.ltb_ge in Hroom.
        rewrite (IH _ seen) by exact Hinv.
        replace (Z.to_nat (AppointmentCount config - Z.of_nat (length sel)))
          with 0%nat by lia.
        reflexivity.
Qed.

Lemma selectUniqueSlots_take (allSlots : list TimeSlot) :
  selectUniqueSlots config allSlots
  = take (Z.to_nat (AppointmentCount config)) (distinctTimes ∅ allSlots).
Proof.
  unfold selectUniqueSlots. rewrite (selectLoop_spec allSlots ∅ ∅ []).
  - cbn [length app]. f_equal. lia.
  - intros t. unfold usedTime. rewrite lookup_empty. cbn. set_solver.
Qed.

Lemma distinctTimes_sublist (l : list TimeSlot) :
  forall seen, distinctTimes seen l `sublist_of` l.
Proof.
  induction l as [|s rest IH]; intros seen; cbn; [constructor|].
  destruct (decide _); [apply sublist_cons | apply sublist_skip]; apply IH.
Qed.

Lemma distinctTimes_fresh (l : list TimeSlot) :
  forall seen r, r ∈ distinctTimes seen l -> Time r ∉ seen.
Proof.
  induction l as [|s rest IH]; intros seen r; cbn; [set_solver|].
  destruct (decide _) as [Hin|Hout].
  - apply IH.
  - intros [->|Hr]%elem_of_cons; [assumption|].
    apply IH in Hr. set_solver.
Qed.

Lemma distinctTimes_NoDup (l : list TimeSlot) :
  forall seen, NoDup (Time <$> distinctTimes seen l).
Proof.
  induction l as [|s rest IH]; intros seen; cbn; [constructor|].
  destruct (decide _); [apply IH|].
  cbn. constructor; [|apply IH].
  intros (r & Heq & Hr)%list_elem_of_fmap.
  apply distinctTimes_fresh in Hr. set_solver.
Qed.

Lemma distinctTimes_cover (l : list TimeSlot) :
  forall seen s, s ∈ l -> Time s ∈ seen \/ Time s ∈ Time <$> distinctTimes seen l.
Proof.
  induction l as [|x rest IH]; intros seen s; [set_solver|].
  cbn. intros [->|Hs]%elem_of_cons.
  - destruct (decide _); [left; assumption|]. right. cbn. set_solver.
  - destruct (decide _) as [Hin|Hout]; [apply IH, Hs|].
    destruct (IH ({[Time x]} ∪ seen) s Hs) as [H|H].
    + apply elem_of_union in H as [H|H]; [|left; exact H].
      apply elem_of_singleton in H. right. rewrite H. apply list_elem_of_here.
    + right. apply list_elem_of_further, H.
Qed.

Lemma distinctTimes_first (l : list TimeSlot) :
  forall seen r, r ∈ distinctTimes seen l -> firstWithTime (Time r) l = Some r.
Proof.
  induction l as [|x rest IH]; intros seen r; cbn; [set_solver|].
  destruct (decide _) as [Hin|Hout].
  - intros Hr. pose proof (distinctTimes_fresh _ _ _ Hr) as Hfresh.
    destruct (String.eqb (Time x) (Time r)) eqn:E.
    + apply String.eqb_eq in E. congruence.
    + eapply IH, Hr.
  - intros [->|Hr]%elem_of_cons.
    + rewrite String.eqb_refl. reflexivity.
    + pose proof (distinctTimes_fresh _ _ _ Hr) as Hfresh.
      destruct (String.eqb (Time x) (Time r)) eqn:E.
      * apply String.eqb_eq in E. set_solver.
      * eapply IH, Hr.
Qed.

(** C3. With a configured appointment count [k >= 0], [selectUniqueSlots]
    returns at most [k] slots, no two of them with the same time-of-day
    string, and every one of them drawn from the input list (in the input's
    order). *)
Theorem selectUniqueSlots_dedup (allSlots : list TimeSlot) :
  0 <= AppointmentCount config ->
  Z.of_nat (length (selectUniqueSlots config allSlots)) <= AppointmentCount config
  /\ NoDup (Time <$> selectUniqueSlots config allSlots)
  /\ selectUniqueSlots config allSlots `sublist_of` allSlots
  /\ forall s, s ∈ selectUniqueSlots config allSlots -> s ∈ allSlots.
Proof.
  intros Hk. rewrite selectUniqueSlots_take.
  assert (take (Z.to_nat (AppointmentCount config)) (distinctTimes ∅ allSlots)
            `sublist_of` allSlots) as Hsub.
  { etrans; [apply sublist_take | apply distinctTimes_sublist]. }
  repeat split.
  - rewrite length_take. lia.
  - apply (sublist_NoDup _ (Time <$> distinctTimes ∅ allSlots));
      [apply distinctTimes_NoDup | apply fmap_sublist, sublist_take].
  - exact Hsub.
  - intros s Hs. eapply elem_of_sublist; eassumption.
Qed.

(** With a count of zero or less nothing is selected. *)
Lemma selectUniqueSlots_no_room (allSlots : list TimeSlot) :
  AppointmentCount config <= 0 -> selectUniqueSlots config allSlots = [].
Proof.
  intros Hk. rewrite selectUniqueSlots_take.
  replace (Z.to_nat (AppointmentCount config)) with 0%nat by lia. reflexivity.
Qed.

End SelectionFacts.

(** ** Sorting *)

Lemma StronglySorted_sublist {A : Type} (R : relation A) (l1 l2 : list A) :
  l1 `sublist_of` l2 -> StronglySorted R l2 -> StronglySorted R l1.
Proof.
  induction 1 as [|x l1 l2 Hsub IH|x l1 l2 Hsub IH]; intros Hs.
  - constructor.
  - apply StronglySorted_cons in Hs as [Hall Hs]. apply StronglySorted_cons.
    split; [|auto]. eapply Forall_forall. intros y Hy.
    eapply Forall_forall in Hall; [exact Hall|]. eapply elem_of_sublist; eassumption.
  - apply StronglySorted_cons in Hs as [_ Hs]. auto.
Qed.

(** In a list sorted by time whose times are pairwise different the times
    strictly increase. *)
Lemma distinct_sorted_strict (l : list TimeSlot) :
  StronglySorted notAfter l -> NoDup (Time <$> l) ->
  StronglySorted timeLt (Time <$> l).
Proof.
  induction l as [|x l IH]; cbn; intros Hs Hnd; [constructor|].
  apply StronglySorted_cons in Hs as [Hall Hs].
  apply NoDup_cons in Hnd as [Hx Hnd].
  apply StronglySorted_cons. split; [|auto].
  apply Forall_forall. intros t (y & -> & Hy)%list_elem_of_fmap.
  eapply Forall_forall in Hall; [|exact Hy].
  apply le_neq_ltb; [apply notAfter_le, Hall|].
  intros Heq. apply Hx. apply list_elem_of_fmap. eauto.
Qed.

Lemma filter_none {A : Type} (P : A -> Prop) `{forall x, Decision (P x)} (l : list A) :
  Forall (fun x => ~ P x) l -> filter P l = [].
Proof.
  induction 1 as [|x l Hx Hl IH]; [reflexivity|].
  rewrite filter_cons_False by assumption. exact IH.
Qed.

Lemma firstWithTime_head (t : string) (l : list TimeSlot) :
  firstWithTime t l = head (filter (fun s => Time s = t) l).
Proof.
  unfold firstWithTime. induction l as [|x l IH]; [reflexivity|].
  cbn [List.find].
  destruct (String.eqb_spec (Time x) t) as [Heq|Hne].
  - rewrite filter_cons_True by assumption. reflexivity.
  - rewrite filter_cons_False by assumption. exact IH.
Qed.

Lemma insertBeforeEqual_perm (x : TimeSlot) (l : list TimeSlot) :
  Permutation (insertBeforeEqual x l) (x :: l).
Proof.
  induction l as [|y l IH]; cbn; [reflexivity|].
  destruct (lessTime y x); [|reflexivity].
  rewrite IH. apply perm_swap.
Qed.

Lemma insertAfterEqual_perm (x : TimeSlot) (l : list TimeSlot) :
  Permutation (insertAfterEqual x l) (x :: l).
Proof.
  induction l as [|y l IH]; cbn; [reflexivity|].
  destruct (lessTime x y); [reflexivity|].
  rewrite IH. apply perm_swap.
Qed.

Lemma insertBeforeEqual_sorted (x : TimeSlot) (l : list TimeSlot) :
  StronglySorted notAfter l -> StronglySorted notAfter (insertBeforeEqual x l).
Proof.
  induction l as [|y l IH]; cbn; intros Hs; [repeat constructor|].
  apply StronglySorted_cons in Hs as [Hall Hs].
  destruct (lessTime y x) eqn:Hyx.
  - apply StronglySorted_cons. split; [|auto].
    rewrite insertBeforeEqual_perm. constructor; [|exact Hall].
    apply lessTime_notAfter, Hyx.
  - apply StronglySorted_cons. split; [|apply StronglySorted_cons; auto].
    constructor; [exact Hyx|].
    eapply Forall_impl; [exact Hall|]. intros z Hz. etrans; [exact Hyx|exact Hz].
Qed.

Lemma insertAfterEqual_sorted (x : TimeSlot) (l : list TimeSlot) :
  StronglySorted notAfter l -> StronglySorted notAfter (insertAfterEqual x l).
Proof.
  induction l as [|y l IH]; cbn; intros Hs; [repeat constructor|].
  apply StronglySorted_cons in Hs as [Hall Hs].
  destruct (lessTime x y) eqn:Hxy.
  - apply lessTime_notAfter in Hxy.
    apply StronglySorted_cons. split; [|apply StronglySorted_cons; auto].
    constructor; [exact Hxy|].
    eapply Forall_impl; [exact Hall|]. intros z Hz. etrans; [exact Hxy|exact Hz].
  - apply StronglySorted_cons. split; [|auto].
    rewrite insertAfterEqual_perm. constructor; [exact Hxy|exact Hall].
Qed.

(** Among sorted slots, a new slot lands behind the slots of its own time. *)
Lemma insertAfterEqual_filter (t : string) (x : TimeSlot) (l : list TimeSlot) :
  StronglySorted notAfter l ->
  filter (fun s => Time s = t) (insertAfterEqual x l)
  = filter (fun s => Time s = t) l ++ filter (fun s => Time s = t) [x].
Proof.
  induction l as [|y l IH]; cbn [insertAfterEqual]; intros Hs; [reflexivity|].
  apply StronglySorted_cons in Hs as [Hall Hs].
  destruct (lessTime x y) eqn:Hxy.
  - destruct (decide (Time x = t)) as [Hx|Hx].
    + assert (filter (fun s => Time s = t) (y :: l) = []) as Hnone.
      { apply filter_none. apply Forall_forall. intros z Hz Heq.
        assert (notAfter y z) as Hyz.
        { apply elem_of_cons in Hz as [->|Hz]; [unfold notAfter|].
          - apply ltb_false_le. reflexivity.
          - eapply Forall_forall in Hall; eauto. }
        apply notAfter_le in Hyz. pose proof (ltb_le _ _ Hxy) as Hle.
        apply (ltb_neq _ _ Hxy). apply (anti_symm String.le); [exact Hle|].
        rewrite Hx, <- Heq. exact Hyz. }
      rewrite (filter_cons_True _ x) by assumption. rewrite Hnone.
      rewrite filter_cons_True by assumption. reflexivity.
    + rewrite (filter_cons_False _ x (y :: l)) by assumption.
      rewrite (filter_cons_False _ x []) by assumption.
      rewrite filter_nil, app_nil_r. reflexivity.
  - rewrite !(filter_cons _ y), IH by assumption.
    destruct (decide (Time y = t)); reflexivity.
Qed.

Lemma fold_insertBeforeEqual (l : list TimeSlot) :
  forall acc, StronglySorted notAfter acc ->
    Permutation (fold_left (fun sorted x => insertBeforeEqual x sorted) l acc) (acc ++ l)
    /\ StronglySorted notAfter (fold_left (fun sorted x => insertBeforeEqual x sorted) l acc).
Proof.
  induction l as [|x l IH]; intros acc Hacc; cbn.
  - rewrite app_nil_r. auto.
  - destruct (IH (insertBeforeEqual x acc)) as [Hp Hs];
      [apply insertBeforeEqual_sorted, Hacc|].
    split; [|exact Hs]. rewrite Hp, insertBeforeEqual_perm.
    rewrite (Permutation_middle acc l x). reflexivity.
Qed.

Lemma fold_insertAfterEqual (l : list TimeSlot) :
  forall acc, StronglySorted notAfter acc ->
    Permutation (fold_left (fun sorted x => insertAfterEqual x sorted) l acc) (acc ++ l)
    /\ StronglySorted notAfter (fold_left (fun sorted x => insertAfterEqual x sorted) l acc)
    /\ forall t,
         filter (fun s => Time s = t)
                (fold_left (fun sorted x => insertAfterEqual x sorted) l acc)
         = filter (fun s => Time s = t) acc ++ filter (fun s => Time s = t) l.
Proof.
  induction l as [|x l IH]; intros acc Hacc; cbn [fold_left].
  - rewrite app_nil_r. repeat split; auto. intros t. rewrite filter_nil, app_nil_r.
    reflexivity.
  - destruct (IH (insertAfterEqual x acc)) as (Hp & Hs & Hf);
      [apply insertAfterEqual_sorted, Hacc|].
    split; [|split; [exact Hs|]].
    + rewrite Hp, insertAfterEqual_perm.
      rewrite (Permutation_middle acc l x). reflexivity.
    + intros t. rewrite Hf, insertAfterEqual_filter by assumption.
      rewrite <- app_assoc, <- filter_app. reflexivity.
Qed.

(** Both sorts keep the promise of [sort.Slice]; insertion sort is stable on
    top of it. *)
Lemma tieReversingSort_spec : SortSliceSpec tieReversingSort.
Proof.
  intros l. destruct (fold_insertBeforeEqual l []) as [Hp Hs]; [constructor|].
  split; [exact Hp|]. apply StronglySorted_Sorted, Hs.
Qed.

Lemma insertionSort_spec : SortSliceSpec insertionSort.
Proof.
  intros l. destruct (fold_insertAfterEqual l []) as (Hp & Hs & _); [constructor|].
  split; [exact Hp|]. apply StronglySorted_Sorted, Hs.
Qed.

Lemma insertionSort_stable : StableSort insertionSort.
Proof.
  intros l t. destruct (fold_insertAfterEqual l []) as (_ & _ & Hf); [constructor|].
  exact (Hf t).
Qed.

(** ** The goroutine pool *)

Lemma tally_insert (g : TaskPC -> nat) (ts : list Task) :
  forall (i : nat) (t : Task) (c : TaskPC),
    ts !! i = Some t ->
    (tally g (setPC i t c ts) + g (pc t) = tally g ts + g c)%nat.
Proof.
  unfold setPC.
  induction ts as [|x ts IH]; intros [|i] t c Hi; try discriminate.
  - injection Hi as ->. simpl. lia.
  - simpl in *. specialize (IH i t c Hi). lia.
Qed.

Lemma tally_positive (g : TaskPC -> nat) (ts : list Task) :
  (0 < tally g ts)%nat -> exists i t, ts !! i = Some t /\ (0 < g (pc t))%nat.
Proof.
  induction ts as [|x ts IH]; cbn; [lia|]. intros Hpos.
  destruct (g (pc x)) as [|n] eqn:Hx.
  - destruct IH as (i & t & Hi & Ht); [lia|]. exists (S i), t. auto.
  - exists 0%nat, x. split; [reflexivity|lia].
Qed.

Lemma tally_zero (g : TaskPC -> nat) (ts : list Task) :
  tally g ts = 0%nat -> forall i t, ts !! i = Some t -> g (pc t) = 0%nat.
Proof.
  induction ts as [|x ts IH]; cbn; intros Hz [|i] t Hi;
    try discriminate.
  - injection Hi as <-. lia.
  - eapply IH; [lia|exact Hi].
Qed.

Lemma tally_le (g h : TaskPC -> nat) (ts : list Task) :
  (forall c, (g c <= h c)%nat) -> (tally g ts <= tally h ts)%nat.
Proof.
  intros Hgh. induction ts as [|x ts IH]; cbn; [lia|].
  specialize (Hgh (pc x)). lia.
Qed.

Lemma setPC_slots (i : nat) (t : Task) (c : TaskPC) (ts : list Task) :
  ts !! i = Some t -> timeSlot <$> setPC i t c ts = timeSlot <$> ts.
Proof.
  intros Hi. unfold setPC. rewrite list_fmap_insert. cbn.
  apply list_insert_id. rewrite list_lookup_fmap, Hi. reflexivity.
Qed.

Lemma setPC_lookup (i j : nat) (t u : Task) (c : TaskPC) (ts : list Task) :
  ts !! i = Some t ->
  setPC i t c ts !! j = Some u ->
  (j = i /\ u = {| timeSlot := timeSlot t; pc := c |}) \/ (j <> i /\ ts !! j = Some u).
Proof.
  intros Hi Hj. unfold setPC in Hj. destruct (decide (j = i)) as [->|Hne].
  - rewrite list_lookup_insert_eq in Hj by (eapply lookup_lt_Some; exact Hi).
    injection Hj as <-. auto.
  - rewrite list_lookup_insert_ne in Hj by congruence. auto.
Qed.

Section PoolFacts.

Context {W : Type}.
Variable env : Env W.
Variable config : Config.

#[local] Abbreviation stepTask := (stepTask env config).
#[local] Abbreviation steps := (steps env config).
#[local] Abbreviation bookAppointment := (bookAppointment env config).
#[local] Abbreviation Move := (Move env config).
#[local] Abbreviation PoolInv := (PoolInv env config).

Lemma stepTask_Move (i : nat) (p p' : Pool) :
  stepTask i p = Some p' <-> crashed p = None /\ Move i p p'.
Proof.
  unfold stepTask. split.
  - destruct (crashed p) eqn:Hc; [discriminate|].
    destruct (tasks p !! i) as [t|] eqn:Ht; [|discriminate].
    destruct (pc t) as [| |r|] eqn:Hpc.
    + destruct (semaphore p <? semaphoreCap)%nat eqn:Hsem; [|discriminate].
      intros [= <-]. split; [reflexivity|].
      eapply MoveAcquire; eauto. apply Nat.ltb_lt, Hsem.
    + destruct (bookAppointment (timeSlot t) (outer p)) as [[[response err]|msg] st1] eqn:Hb;
        intros [= <-]; (split; [reflexivity|]).
      * eapply MoveReturn; eauto.
      * eapply MovePanic; eauto.
    + intros [= <-]. split; [reflexivity|]. eapply MoveStore; eauto.
    + discriminate.
  - intros [Hc [t Ht Hpc Hsem ->|t response err st1 Ht Hpc Hb ->
               |t msg st1 Ht Hpc Hb ->|t r Ht Hpc ->]];
      rewrite Hc, Ht, Hpc; try rewrite Hb; try reflexivity.
    apply Nat.ltb_lt in Hsem. rewrite Hsem. reflexivity.
Qed.

(** Every step takes something off the work that is left. *)
Lemma Move_weight (i : nat) (p p' : Pool) :
  Move i p p' -> (tally pcWeight (tasks p') < tally pcWeight (tasks p))%nat.
Proof.
  intros [t Ht Hpc Hsem ->|t response err st1 Ht Hpc Hb ->
         |t msg st1 Ht Hpc Hb ->|t r Ht Hpc ->]; cbn [tasks];
    [ pose proof (tally_insert pcWeight (tasks p) i t InFlight Ht) as Hw
    | pose proof (tally_insert pcWeight (tasks p) i t
                    (Storing {| response := response; err := err |}) Ht) as Hw
    | pose proof (tally_insert pcWeight (tasks p) i t Finished Ht) as Hw
    | pose proof (tally_insert pcWeight (tasks p) i t Finished Ht) as Hw ];
    rewrite Hpc in Hw; cbn [pcWeight] in Hw; lia.
Qed.

Lemma spawn_tally (g : TaskPC -> nat) (slots : list TimeSlot) :
  tally g ((fun slot => {| timeSlot := slot; pc := Blocked |}) <$> slots)
  = (g Blocked * length slots)%nat.
Proof.
  induction slots as [|s slots IH]; [simpl; lia|].
  rewrite fmap_cons. cbn [tally pc length]. rewrite IH. lia.
Qed.

Lemma spawn_inv (slots : list TimeSlot) (st0 : State W) :
  PoolInv slots st0 (spawn slots st0).
Proof.
  split; unfold spawn, tokensOut; cbn [tasks results semaphore crashed].
  - rewrite <- list_fmap_compose. apply list_fmap_id.
  - apply length_replicate.
  - rewrite spawn_tally. reflexivity.
  - unfold semaphoreCap. lia.
  - intros i t r (s & -> & _)%list_lookup_fmap_Some. discriminate.
  - intros _ i t (s & -> & _)%list_lookup_fmap_Some. discriminate.
Qed.

Lemma Move_inv (slots : list TimeSlot) (st0 : State W) (i : nat) (p p' : Pool) :
  steps (spawn slots st0) p -> crashed p = None ->
  PoolInv slots st0 p -> Move i p p' -> PoolInv slots st0 p'.
Proof.
  intros Hreach Hlive [Hslots Hres Htok Hcap Hstoring Hfin] Hmove.
  specialize (Hfin Hlive). unfold tokensOut in *.
  destruct Hmove as [t Ht Hpc Hsem ->|t response err st1 Ht Hpc Hb ->
                    |t msg st1 Ht Hpc Hb ->|t r Ht Hpc ->];
    [ pose proof (tally_insert holdsToken (tasks p) i t InFlight Ht) as Hw
    | pose proof (tally_insert holdsToken (tasks p) i t
                    (Storing {| response := response; err := err |}) Ht) as Hw
    | pose proof (tally_insert holdsToken (tasks p) i t Finished Ht) as Hw
    | pose proof (tally_insert holdsToken (tasks p) i t Finished Ht) as Hw ];
    rewrite Hpc in Hw; cbn [holdsToken] in Hw;
    (split; unfold tokensOut; cbn [tasks results semaphore crashed outer];
     [ rewrite setPC_slots by assumption; exact Hslots
     | rewrite ?length_insert; exact Hres
     | lia
     | lia
     | intros j u r' Hj Hu;
       destruct (setPC_lookup _ _ _ _ _ _ Ht Hj) as [[-> ->]|[Hne Hj']];
       [ | eapply Hstoring; eauto ]
     | intros Hc j u Hj Hu;
       destruct (setPC_lookup _ _ _ _ _ _ Ht Hj) as [[-> ->]|[Hne Hj']];
       [ | try (rewrite list_lookup_insert_ne by congruence); try (apply Hfin; auto) ] ]).
  all: try discriminate.
  - injection Hu as <-. exists p. split; [exact Hreach|].
    change (timeSlot {| timeSlot := timeSlot t;
                        pc := Storing {| response := response; err := err |} |})
      with (timeSlot t).
    rewrite Hb. reflexivity.
  - exists r. split; [|exact (Hstoring i t r Ht Hpc)].
    apply list_lookup_insert_eq. rewrite Hres, <- Hslots, length_fmap.
    eapply lookup_lt_Some; exact Ht.
Qed.

Lemma steps_inv (slots : list TimeSlot) (st0 : State W) (p : Pool) :
  steps (spawn slots st0) p -> PoolInv slots st0 p.
Proof.
  intros Hreach. remember (spawn slots st0) as p0 eqn:Hp0.
  induction Hreach as [p|p q r Hpq IH Hqr]; subst.
  - apply spawn_inv.
  - destruct Hqr as [i q r Hstep]. apply stepTask_Move in Hstep as [Hlive Hmove].
    eapply Move_inv; eauto.
Qed.

Lemma steps_trans (p q r : Pool) : steps p q -> steps q r -> steps p r.
Proof.
  intros Hpq Hqr. induction Hqr as [q|q r s Hqr IH Hrs]; [exact Hpq|].
  eapply steps_more; [apply IH, Hpq|exact Hrs].
Qed.

Lemma steps_run (sched : list nat) (p : Pool) : steps p (run env config sched p).
Proof.
  revert p. induction sched as [|i sched IH]; intros p; cbn [run].
  - constructor.
  - destruct (stepTask i p) as [p'|] eqn:Hstep; [|apply IH].
    eapply steps_trans; [|apply IH].
    eapply steps_more; [constructor|]. econstructor. exact Hstep.
Qed.

Lemma steps_drain (fuel : nat) (p : Pool) : steps p (drain env config fuel p).
Proof.
  revert p. induction fuel as [|fuel IH]; intros p; cbn [drain]; [constructor|].
  destruct (firstEnabled env config p) as [i|]; [|constructor].
  destruct (stepTask i p) as [p'|] eqn:Hstep; [|constructor].
  eapply steps_trans; [|apply IH].
  eapply steps_more; [constructor|]. econstructor. exact Hstep.
Qed.

Lemma run_app (sched1 sched2 : list nat) (p : Pool) :
  run env config (sched1 ++ sched2) p
  = run env config sched2 (run env config sched1 p).
Proof.
  revert p. induction sched1 as [|i sched1 IH]; intros p; cbn [run app];
    [reflexivity|].
  destruct (stepTask i p); apply IH.
Qed.

(** Every execution is the run of a schedule. *)
Lemma steps_is_run (p q : Pool) :
  steps p q -> exists sched, q = run env config sched p.
Proof.
  induction 1 as [p|p q r Hpq [sched Hq] Hqr]; [exists []; reflexivity|].
  destruct Hqr as [i q r Hstep]. subst q. exists (sched ++ [i]).
  rewrite run_app. cbn [run]. rewrite Hstep. reflexivity.
Qed.

Lemma run_weight (sched : list nat) (p : Pool) :
  (tally pcWeight (tasks (run env config sched p)) <= tally pcWeight (tasks p))%nat.
Proof.
  revert p. induction sched as [|i sched IH]; intros p; cbn [run]; [lia|].
  destruct (stepTask i p) as [p'|] eqn:Hstep; [|apply IH].
  apply stepTask_Move in Hstep as [_ Hmove]. apply Move_weight in Hmove.
  specialize (IH p'). lia.
Qed.

Lemma firstEnabled_None (p : Pool) :
  firstEnabled env config p = None -> forall i, stepTask i p = None.
Proof.
  unfold firstEnabled. intros Hnone i.
  destruct (stepTask i p) as [p'|] eqn:Hstep; [|reflexivity]. exfalso.
  assert (i < length (tasks p))%nat as Hi.
  { apply stepTask_Move in Hstep as [_ Hmove].
    destruct Hmove; eapply lookup_lt_Some; eassumption. }
  assert (bool_decide (is_Some (stepTask i p)) = false) as Hoff.
  { apply (find_none _ _ Hnone i), in_seq. lia. }
  apply bool_decide_eq_false in Hoff. apply Hoff. rewrite Hstep. eauto.
Qed.

Lemma firstEnabled_Some (p : Pool) (i : nat) :
  firstEnabled env config p = Some i -> is_Some (stepTask i p).
Proof.
  unfold firstEnabled. intros Hsome. apply find_some in Hsome as [_ Hsome].
  apply bool_decide_eq_true in Hsome. exact Hsome.
Qed.

(** With enough fuel [drain] stops only where no goroutine can move. *)
Lemma drain_quiescent (fuel : nat) :
  forall p, (tally pcWeight (tasks p) <= fuel)%nat ->
    forall i, stepTask i (drain env config fuel p) = None.
Proof.
  induction fuel as [|fuel IH]; intros p Hw i; cbn [drain].
  - destruct (stepTask i p) as [p'|] eqn:Hstep; [|reflexivity].
    apply stepTask_Move in Hstep as [_ Hmove]. apply Move_weight in Hmove. lia.
  - destruct (firstEnabled env config p) as [j|] eqn:Hfirst.
    + destruct (firstEnabled_Some _ _ Hfirst) as [p' Hstep]. rewrite Hstep.
      apply IH. apply stepTask_Move in Hstep as [_ Hmove].
      apply Move_weight in Hmove. lia.
    + apply firstEnabled_None, Hfirst.
Qed.

(** No deadlock: while the process is alive and some goroutine has not
    finished, some goroutine can move. *)
Lemma progress (slots : list TimeSlot) (st0 : State W) (p : Pool) :
  PoolInv slots st0 p -> crashed p = None ->
  forall i t, tasks p !! i = Some t -> pc t <> Finished ->
  exists j p', stepTask j p = Some p'.
Proof.
  intros Hinv Hlive i t Ht Hpc.
  assert (forall j u, tasks p !! j = Some u -> (0 < holdsToken (pc u))%nat ->
                      exists p', stepTask j p = Some p') as Hholder.
  { intros j u Hu Hpos. destruct (pc u) as [| |r|] eqn:Hpcu; cbn in Hpos; try lia.
    - destruct (bookAppointment (timeSlot u) (outer p)) as [[[response err]|msg] st1] eqn:Hb;
        eexists; apply stepTask_Move; (split; [exact Hlive|]).
      + eapply MoveReturn; eauto.
      + eapply MovePanic; eauto.
    - eexists. apply stepTask_Move. split; [exact Hlive|]. eapply MoveStore; eauto. }
  destruct (pc t) as [| |r|] eqn:Hpct; [| | |contradiction].
  - destruct (decide (semaphore p < semaphoreCap)%nat) as [Hroom|Hfull].
    + exists i. eexists. apply stepTask_Move. split; [exact Hlive|].
      eapply MoveAcquire; eauto.
    + destruct (tally_positive holdsToken (tasks p)) as (j & u & Hu & Hpos).
      { rewrite <- (inv_tokens _ _ _ _ _ Hinv : semaphore p = tally holdsToken (tasks p)).
        unfold semaphoreCap in Hfull. lia. }
      exists j. eapply Hholder; eauto.
  - exists i. eapply Hholder; eauto. rewrite Hpct. cbn. lia.
  - exists i. eapply Hholder; eauto. rewrite Hpct. cbn. lia.
Qed.

End PoolFacts.

Section PoolTheorems.

Context {W : Type}.
Variable env : Env W.
Variable config : Config.

#[local] Abbreviation stepTask := (stepTask env config).
#[local] Abbreviation steps := (steps env config).

(** C4. In every state an execution of [bookAppointmentsConcurrently] can
    reach, at most 5 booking calls are in flight; the tokens out of the gate
    are exactly those of the goroutines between acquiring and exiting; a
    goroutine back from its call can always exit, whatever the call
    returned (an error included); and every step by which a goroutine exits,
    normally or by a panic inside the call, gives its token back. *)
Theorem gate_admits_at_most_5 (slots : list TimeSlot) (st0 : State W) (p : Pool) :
  steps (spawn slots st0) p ->
  (inFlight p <= 5)%nat
  /\ semaphore p = tokensOut p
  /\ (tokensOut p <= 5)%nat
  /\ (forall i t r, crashed p = None -> tasks p !! i = Some t -> pc t = Storing r ->
        exists p', stepTask i p = Some p' /\ semaphore p = S (semaphore p'))
  /\ (forall i p' t', stepTask i p = Some p' ->
        tasks p' !! i = Some t' -> pc t' = Finished ->
        semaphore p = S (semaphore p') /\ tokensOut p = S (tokensOut p')).
Proof.
  intros Hreach. pose proof (steps_inv env config _ _ _ Hreach) as Hinv.
  destruct Hinv as [Hslots Hres Htok Hcap Hstoring Hfin].
  assert (forall i t, tasks p !! i = Some t -> (0 < holdsToken (pc t))%nat ->
                      (0 < semaphore p)%nat) as Hheld.
  { intros i t Ht Hpos. rewrite Htok. unfold tokensOut.
    destruct (tally holdsToken (tasks p)) eqn:Hz; [|lia].
    rewrite (tally_zero _ _ Hz i t Ht) in Hpos. lia. }
  split; [|split; [exact Htok|split; [|split]]].
  - unfold inFlight. etrans; [apply (tally_le callInFlight holdsToken)|].
    + intros []; cbn; lia.
    + fold (tokensOut p). rewrite <- Htok. exact Hcap.
  - rewrite <- Htok. exact Hcap.
  - intros i t r Hlive Ht Hpc. eexists. split.
    + apply stepTask_Move. split; [exact Hlive|]. eapply MoveStore; eauto.
    + cbn [semaphore]. specialize (Hheld i t Ht). rewrite Hpc in Hheld.
      cbn in Hheld. lia.
  - intros i p' t' Hstep Ht' Hpc'.
    apply stepTask_Move in Hstep as [Hlive Hmove].
    pose proof (steps_inv env config slots st0 p') as Hinv'.
    destruct Hinv' as [_ _ Htok' _ _ _].
    { eapply steps_more; [exact Hreach|]. econstructor.
      apply stepTask_Move. split; eassumption. }
    assert (semaphore p = S (semaphore p')) as Hs.
    { destruct Hmove as [t Ht Hpc Hsem ->|t response err st1 Ht Hpc Hb ->
                        |t msg st1 Ht Hpc Hb ->|t r Ht Hpc ->];
        cbn [tasks semaphore] in *.
      - destruct (setPC_lookup _ _ _ _ _ _ Ht Ht') as [[_ ->]|[Hne _]];
          [discriminate|congruence].
      - destruct (setPC_lookup _ _ _ _ _ _ Ht Ht') as [[_ ->]|[Hne _]];
          [discriminate|congruence].
      - specialize (Hheld i t Ht). rewrite Hpc in Hheld. cbn in Hheld. lia.
      - specialize (Hheld i t Ht). rewrite Hpc in Hheld. cbn in Hheld. lia. }
    split; [exact Hs|]. rewrite <- Htok, <- Htok'. exact Hs.
Qed.


(** After the schedule and the drain the pool is at rest, reachable, and,
    if the process is alive, every goroutine has finished. *)
Lemma pool_settles (sched : list nat) (slots : list TimeSlot) (st0 : State W) :
  let p := drain env config (3 * length slots) (run env config sched (spawn slots st0)) in
  steps (spawn slots st0) p
  /\ (crashed p = None ->
      forall i t, tasks p !! i = Some t -> pc t = Finished).
Proof.
  intros p.
  assert (steps (spawn slots st0) p) as Hreach.
  { eapply steps_trans; [apply steps_run|apply steps_drain]. }
  split; [exact Hreach|]. intros Hlive i t Ht.
  destruct (pc t) eqn:Hpc; [exfalso| exfalso | exfalso |reflexivity].
  all: assert (pc t <> Finished) as Hbusy by (rewrite Hpc; discriminate).
  all: destruct (progress env config _ _ _ (steps_inv env config _ _ _ Hreach) Hlive i t Ht Hbusy)
    as (j & p' & Hstep).
  all: unfold p in Hstep; rewrite drain_quiescent in Hstep; [discriminate|].
  all: etrans; [apply run_weight|]; unfold spawn; cbn [tasks].
  all: rewrite spawn_tally; cbn [pcWeight]; lia.
Qed.


(** A slot on which [bookAppointment] panics brings the process down under
    every schedule: nothing is returned. *)
Lemma bookAppointmentsConcurrently_panics
    (sched : list nat) (slots : list TimeSlot) (st : State W) :
  Exists panics slots ->
  exists msg,
    (bookAppointmentsConcurrently env config sched slots st).1 = Panicked msg.
Proof.
  intros Hbad. unfold bookAppointmentsConcurrently.
  destruct (pool_settles sched slots st) as [Hreach Hdone].
  set (p := drain env config (3 * length slots) (run env config sched (spawn slots st))) in *.
  pose proof (steps_inv env config _ _ _ Hreach) as Hinv.
  destruct (crashed p) as [msg|] eqn:Hlive; [eauto|exfalso].
  specialize (Hdone eq_refl).
  apply Exists_exists in Hbad as (slot & Hin & Hpanics).
  rewrite <- (inv_slots _ _ _ _ _ Hinv) in Hin.
  apply list_elem_of_fmap in Hin as (t & -> & Ht).
  apply list_elem_of_lookup in Ht as [i Ht].
  destruct (inv_finished _ _ _ _ _ Hinv Hlive i t Ht (Hdone i t Ht))
    as (r & _ & q & _ & Hret).
  apply (bookAppointment_panics_iff env config _ (outer q)) in Hpanics as [msg Hp].
  rewrite Hp in Hret. discriminate.
Qed.


End PoolTheorems.

(** ** The collector *)
Section CollectFacts.

Context {W : Type}.
Variable env : Env W.
Variable config : Config.
Variable sortSlice : list TimeSlot -> list TimeSlot.

Lemma appendSlots_spec (orderID : Z) (targetDateStr : string) (times : list string) :
  forall allSlots,
    appendSlots orderID targetDateStr times allSlots
    = allSlots ++ slotsOf orderID targetDateStr times.
Proof.
  unfold slotsOf.
  induction times as [|timeStr rest IH]; intros allSlots; cbn [appendSlots].
  - rewrite app_nil_r. reflexivity.
  - rewrite IH, fmap_cons, <- app_assoc. reflexivity.
Qed.

Lemma collectOrder_acc (targetDateStr : string) (order : Order)
    (allSlots : list TimeSlot) (st : State W) :
  collectOrder env config targetDateStr order allSlots st
  = (allSlots ++ (collectOrder env config targetDateStr order [] st).1,
     (collectOrder env config targetDateStr order [] st).2).
Proof.
  unfold collectOrder.
  destruct (getAvailableDates env config (ID order) st) as [[dates|e] st1];
    cbn [fst snd]; [|now rewrite app_nil_r].
  destruct (dateFound targetDateStr dates); cbn [negb fst snd]; [|now rewrite app_nil_r].
  destruct (getAvailableTimes env config (ID order) targetDateStr st1)
    as [[times|e] st2]; cbn [fst snd]; [|now rewrite app_nil_r].
  rewrite !appendSlots_spec. reflexivity.
Qed.

Lemma collectLoop_acc (targetDateStr : string) (orders : list Order) :
  forall (allSlots : list TimeSlot) (st : State W),
    collectLoop env config targetDateStr orders allSlots st
    = (allSlots ++ (collectLoop env config targetDateStr orders [] st).1,
       (collectLoop env config targetDateStr orders [] st).2).
Proof.
  induction orders as [|order rest IH]; intros allSlots st; cbn [collectLoop].
  - cbn. now rewrite app_nil_r.
  - rewrite (collectOrder_acc _ _ allSlots).
    destruct (collectOrder env config targetDateStr order [] st) as [s1 st1].
    cbn [fst snd]. rewrite (IH (allSlots ++ s1)), (IH s1). cbn [fst snd].
    rewrite app_assoc. reflexivity.
Qed.

Lemma collectLoop_app (targetDateStr : string) (before after : list Order) :
  forall (allSlots : list TimeSlot) (st : State W),
    collectLoop env config targetDateStr (before ++ after) allSlots st
    = collectLoop env config targetDateStr after
        (collectLoop env config targetDateStr before allSlots st).1
        (collectLoop env config targetDateStr before allSlots st).2.
Proof.
  induction before as [|order rest IH]; intros allSlots st; [reflexivity|].
  cbn [collectLoop app].
  destruct (collectOrder env config targetDateStr order allSlots st) as [s1 st1].
  apply IH.
Qed.

(** An order whose lookup fails adds nothing; an order that offers the
    target date adds one slot per time string it returns. *)
Lemma collectOrder_failing (targetDateStr : string) (order : Order)
    (allSlots : list TimeSlot) (st : State W) :
  lookupFails env config targetDateStr order st ->
  (collectOrder env config targetDateStr order allSlots st).1 = allSlots.
Proof.
  unfold collectOrder.
  intros [(e & st1 & ->)|(dates & st1 & e & st2 & -> & -> & ->)]; reflexivity.
Qed.

Lemma collectOrder_good (targetDateStr : string) (order : Order)
    (allSlots : list TimeSlot) (st st1 st2 : State W) (dates times : list string) :
  getAvailableDates env config (ID order) st = (Ok dates, st1) ->
  dateFound targetDateStr dates = true ->
  getAvailableTimes env config (ID order) targetDateStr st1 = (Ok times, st2) ->
  collectOrder env config targetDateStr order allSlots st
  = (allSlots ++ slotsOf (ID order) targetDateStr times, st2).
Proof.
  unfold collectOrder. intros -> -> ->. cbn [negb]. now rewrite appendSlots_spec.
Qed.

(** The error [collectAllTimeSlots] returns is always [nil]. *)
Lemma collectAllTimeSlots_nil_error (orders : list Order) (st : State W) :
  (collectAllTimeSlots env config sortSlice orders st).1.2 = None.
Proof.
  unfold collectAllTimeSlots.
  destruct (collectLoop env config _ orders [] st). reflexivity.
Qed.

Lemma collectAllTimeSlots_sorted (orders : list Order) (st : State W) :
  (collectAllTimeSlots env config sortSlice orders st).1.1
  = sortSlice
      (collectLoop env config (formatISODate (getNextWorkingDay env st)) orders [] st).1.
Proof.
  unfold collectAllTimeSlots.
  destruct (collectLoop env config _ orders [] st). reflexivity.
Qed.

(** C5. When the dates lookup (or the times lookup) of one order fails, the
    collection goes on: the returned error is [nil], the failing order adds
    nothing, and the returned slots are exactly those of the orders before
    it and of the orders after it. *)
Theorem collectAllTimeSlots_skips_failing_order
    (before after : list Order) (bad : Order) (st st1 st2 st3 : State W)
    (slotsBefore slotsBad slotsAfter : list TimeSlot) :
  let targetDateStr := formatISODate (getNextWorkingDay env st) in
  SortSliceSpec sortSlice ->
  collectLoop env config targetDateStr before [] st = (slotsBefore, st1) ->
  lookupFails env config targetDateStr bad st1 ->
  collectOrder env config targetDateStr bad [] st1 = (slotsBad, st2) ->
  collectLoop env config targetDateStr after [] st2 = (slotsAfter, st3) ->
  slotsBad = []
  /\ exists allSlots,
       collectAllTimeSlots env config sortSlice (before ++ bad :: after) st
       = ((allSlots, None), st3)
       /\ Permutation allSlots (slotsBefore ++ slotsAfter)
       /\ forall s, s ∈ allSlots <-> s ∈ slotsBefore \/ s ∈ slotsAfter.
Proof.
  intros targetDateStr Hsort Hbefore Hfails Hbad Hafter.
  assert (slotsBad = []) as ->.
  { pose proof (collectOrder_failing _ _ [] _ Hfails) as H.
    rewrite Hbad in H. exact H. }
  split; [reflexivity|].
  unfold collectAllTimeSlots. fold targetDateStr.
  rewrite collectLoop_app, Hbefore. cbn [fst snd collectLoop].
  rewrite collectOrder_acc, Hbad. cbn [fst snd]. rewrite app_nil_r.
  rewrite collectLoop_acc, Hafter. cbn [fst snd].
  eexists. split; [reflexivity|].
  destruct (Hsort (slotsBefore ++ slotsAfter)) as [Hperm _].
  split; [exact Hperm|]. intros s. rewrite Hperm. apply elem_of_app.
Qed.

End CollectFacts.

(** ** What is printed

    Only [runScheduling] prints, and only after the bookings. *)
Section OutputFacts.

Context {W : Type}.
Variable env : Env W.
Variable config : Config.
Variable sortSlice : list TimeSlot -> list TimeSlot.

Lemma send_stdout (req : Request) (st : State W) :
  stdout (send env req st).2 = stdout st.
Proof. unfold send. destruct (roundTrip env req (world st)). reflexivity. Qed.

Ltac through_send req st :=
  pose proof (send_stdout req st);
  destruct (send env req st) as [[?|? [?|?]] ?]; cbn [fst snd] in *.

Lemma getAvailableOrders_stdout (st : State W) :
  stdout (getAvailableOrders env config st).2 = stdout st.
Proof.
  unfold getAvailableOrders.
  match goal with |- context [send env ?req st] => through_send req st end;
    try assumption.
  destruct (unmarshalOrders env _); assumption.
Qed.

Lemma getAvailableDates_stdout (orderID : Z) (st : State W) :
  stdout (getAvailableDates env config orderID st).2 = stdout st.
Proof.
  unfold getAvailableDates.
  match goal with |- context [send env ?req st] => through_send req st end;
    try assumption.
  destruct (unmarshalStrings env _); assumption.
Qed.

Lemma getAvailableTimes_stdout (orderID : Z) (dateStr : string) (st : State W) :
  stdout (getAvailableTimes env config orderID dateStr st).2 = stdout st.
Proof.
  unfold getAvailableTimes. destruct (parseDate dateStr); [|reflexivity].
  match goal with |- context [send env ?req st] => through_send req st end;
    try assumption.
  destruct (negb _); [assumption|].
  destruct (unmarshalStrings env _); assumption.
Qed.

Lemma collectOrder_stdout (targetDateStr : string) (order : Order)
    (allSlots : list TimeSlot) (st : State W) :
  stdout (collectOrder env config targetDateStr order allSlots st).2 = stdout st.
Proof.
  unfold collectOrder.
  pose proof (getAvailableDates_stdout (ID order) st) as Hd.
  destruct (getAvailableDates env config (ID order) st) as [[dates|e] st1];
    cbn [fst snd] in *; [|exact Hd].
  destruct (negb _); [exact Hd|].
  pose proof (getAvailableTimes_stdout (ID order) targetDateStr st1) as Ht.
  destruct (getAvailableTimes env config (ID order) targetDateStr st1)
    as [[times|e] st2]; cbn [fst snd] in *; congruence.
Qed.

Lemma collectLoop_stdout (targetDateStr : string) (orders : list Order) :
  forall (allSlots : list TimeSlot) (st : State W),
    stdout (collectLoop env config targetDateStr orders allSlots st).2 = stdout st.
Proof.
  induction orders as [|order rest IH]; intros allSlots st; cbn [collectLoop];
    [reflexivity|].
  pose proof (collectOrder_stdout targetDateStr order allSlots st) as Ho.
  destruct (collectOrder env config targetDateStr order allSlots st) as [s1 st1].
  rewrite IH. exact Ho.
Qed.

Lemma collectAllTimeSlots_stdout (orders : list Order) (st : State W) :
  stdout (collectAllTimeSlots env config sortSlice orders st).2 = stdout st.
Proof.
  unfold collectAllTimeSlots.
  pose proof (collectLoop_stdout (formatISODate (getNextWorkingDay env st)) orders [] st)
    as Hl.
  destruct (collectLoop env config _ orders [] st). exact Hl.
Qed.





End OutputFacts.

(** ** The run *)

Lemma targetOrdersLoop_spec (config : Config) (orders : list Order) :
  forall targetOrders,
    targetOrdersLoop config orders targetOrders
    = targetOrders ++ filter (atLocation config) orders.
Proof.
  induction orders as [|order rest IH]; intros acc; cbn [targetOrdersLoop].
  - now rewrite app_nil_r.
  - destruct (String.eqb_spec (Nome (OrderLocation order)) (ConfigLocation config))
      as [Heq|Hne].
    + rewrite IH, filter_cons_True by exact Heq. now rewrite <- app_assoc.
    + rewrite IH, filter_cons_False by exact Hne. reflexivity.
Qed.




Section RunFacts.

Context {W : Type}.
Variable env : Env W.
Variable config : Config.
Variable sortSlice : list TimeSlot -> list TimeSlot.

(** C7, as the code has it. From the collected slots, sorted by [sort.Slice],
    the selection takes strictly increasing time-of-day strings; every
    collected time it leaves out is later than every time it takes; and
    among the collected slots of one time-of-day it takes the one
    [sort.Slice] put first.  That is the slot of the first order in input
    order when the sort kept equal times in their original order, which
    [sort.Slice] does not promise. *)
Theorem selection_prefers_earliest (orders : list Order) (st : State W) :
  let collected :=
    (collectLoop env config (formatISODate (getNextWorkingDay env st)) orders [] st).1 in
  let allSlots := (collectAllTimeSlots env config sortSlice orders st).1.1 in
  let chosen := selectUniqueSlots config allSlots in
  SortSliceSpec sortSlice ->
  StronglySorted timeLt (Time <$> chosen)
  /\ (forall s r, s ∈ collected -> r ∈ chosen ->
        Time s ∉ Time <$> chosen -> timeLt (Time r) (Time s))
  /\ (forall r, r ∈ chosen ->
        r ∈ collected /\ firstWithTime (Time r) allSlots = Some r)
  /\ (StableSort sortSlice ->
      forall r, r ∈ chosen -> firstWithTime (Time r) collected = Some r).
Proof.
  intros collected allSlots chosen Hsort.
  assert (allSlots = sortSlice collected) as Hall
    by apply collectAllTimeSlots_sorted.
  destruct (Hsort collected) as [Hperm Hsorted]. rewrite <- Hall in Hperm, Hsorted.
  apply Sorted_StronglySorted in Hsorted; [|apply notAfter_trans].
  set (n := Z.to_nat (AppointmentCount config)).
  set (D := distinctTimes ∅ allSlots).
  assert (chosen = take n D) as Hchosen by apply selectUniqueSlots_take.
  assert (StronglySorted timeLt (Time <$> D)) as HD.
  { apply distinct_sorted_strict; [|apply distinctTimes_NoDup].
    eapply StronglySorted_sublist; [apply distinctTimes_sublist|exact Hsorted]. }
  assert (forall r, r ∈ chosen -> r ∈ D) as HinD.
  { intros r Hr. rewrite Hchosen in Hr. eapply elem_of_sublist; [exact Hr|].
    apply sublist_take. }
  rewrite <- (take_drop n D), fmap_app, <- Hchosen in HD.
  split; [|split; [|split]].
  - eapply StronglySorted_app_1_l, HD.
  - intros s r Hs Hr Hout.
    eapply StronglySorted_app_1_elem_of; [exact HD| |].
    + apply list_elem_of_fmap. eauto.
    + assert (s ∈ allSlots) as Hs' by (rewrite Hperm; exact Hs).
      destruct (distinctTimes_cover allSlots ∅ s Hs') as [Hempty|Hcov];
        [set_solver|].
      fold D in Hcov. rewrite <- (take_drop n D), fmap_app, <- Hchosen in Hcov.
      apply elem_of_app in Hcov as [Hcov|Hcov]; [contradiction|exact Hcov].
  - intros r Hr. split.
    + rewrite <- Hperm. eapply elem_of_sublist; [apply HinD, Hr|].
      apply distinctTimes_sublist.
    + eapply distinctTimes_first. apply HinD, Hr.
  - intros Hstable r Hr.
    rewrite firstWithTime_head, <- (Hstable collected), <- Hall, <- firstWithTime_head.
    eapply distinctTimes_first. apply HinD, Hr.
Qed.

(** C10. [collectAllTimeSlots] returns a [nil] error on every input, so
    [runScheduling] never returns "failed to collect time slots"; when the
    lookups of every order fail, what comes back is the empty list (with a
    [nil] error). *)
Theorem collectAllTimeSlots_never_errors (orders : list Order) (st : State W) :
  (collectAllTimeSlots env config sortSlice orders st).1.2 = None
  /\ (forall sched st0 e,
        (runScheduling env config sortSlice sched st0).1
        <> Returned (Some (Wrapped "failed to collect time slots" e)))
  /\ (SortSliceSpec sortSlice ->
      (forall order st', order ∈ orders ->
         lookupFails env config (formatISODate (getNextWorkingDay env st)) order st') ->
      (collectAllTimeSlots env config sortSlice orders st).1 = ([], None)).
Proof.
  split; [apply collectAllTimeSlots_nil_error|split].
  - intros sched st0 e. unfold runScheduling.
    destruct (getAvailableOrders env config st0) as [[fetched|e0] st1];
      [|discriminate].
    destruct (length _ =? 0)%nat; [discriminate|].
    pose proof (collectAllTimeSlots_nil_error env config sortSlice
                  (targetOrdersLoop config fetched []) st1) as Hnil.
    destruct (collectAllTimeSlots env config sortSlice _ st1) as [[allSlots cerr] st2].
    cbn [fst snd] in Hnil. subst cerr.
    destruct (length allSlots =? 0)%nat; [discriminate|].
    destruct (length (selectUniqueSlots config allSlots) =? 0)%nat; [discriminate|].
    destruct (bookAppointmentsConcurrently env config sched _ st2)
      as [[bookingResults|msg] st3]; [|discriminate].
    destruct (tallyLoop bookingResults 0 []) as [successCount successfulBookings].
    destruct (successCount =? 0); discriminate.
  - intros Hsort Hfail.
    assert (forall l (s : State W), (forall o, o ∈ l -> o ∈ orders) ->
              (collectLoop env config (formatISODate (getNextWorkingDay env st)) l [] s).1
              = []) as Hloop.
    { induction l as [|o l IH]; intros s Hsub; [reflexivity|]. cbn [collectLoop].
      pose proof (collectOrder_failing env config _ o [] s
                    (Hfail o s (Hsub o (list_elem_of_here _ _)))) as Ho.
      destruct (collectOrder env config _ o [] s) as [s1 st1]. cbn [fst] in Ho.
      subst s1. apply IH. intros o' Ho'. apply Hsub. now apply list_elem_of_further. }
    unfold collectAllTimeSlots.
    specialize (Hloop orders st (fun o H => H)).
    destruct (collectLoop env config _ orders [] st) as [slots st1].
    cbn [fst] in *. subst slots.
    destruct (Hsort []) as [Hperm _]. apply Permutation_nil_r in Hperm.
    rewrite Hperm. reflexivity.
Qed.



End RunFacts.

(** * The properties on the test double *)

(** The scenario of the specification: order 2 is filtered out by location,
    three slots are collected for order 1, and a count of 2 selects 09:00 and
    10:00. *)
Example scenario_natal_collects_three :
  (collectAllTimeSlots (Mock.env Mock.natal) (Mock.config "NATAL" 2) insertionSort
     (targetOrdersLoop (Mock.config "NATAL" 2) (Mock.order <$> Mock.natal) [])
     Mock.start).1
  = ([Mock.slot 1 "09:00:00"; Mock.slot 1 "09:00:00"; Mock.slot 1 "10:00:00"], None).
Proof. vm_compute. reflexivity. Qed.

Example scenario_natal_selects_two :
  selectUniqueSlots (Mock.config "NATAL" 2)
    [Mock.slot 1 "09:00:00"; Mock.slot 1 "09:00:00"; Mock.slot 1 "10:00:00"]
  = [Mock.slot 1 "09:00:00"; Mock.slot 1 "10:00:00"].
Proof. vm_compute. reflexivity. Qed.

(** HTTP 500 on one booking is an error at that index only. *)
Example scenario_http_500 :
  (bookAppointmentsConcurrently (Mock.env Mock.natal) (Mock.config "NATAL" 3) [2; 0; 1]%nat
     [Mock.slot 1 "09:00:00"; Mock.slot 1 "23:59:00"; Mock.slot 1 "10:00:00"]
     Mock.start).1
  = Returned
      [{| response := {| CodigoVaga := "1/2024-06-10T03:00:00.000Z/09:00"; Agendou := 1 |};
          err := None |};
       {| response := zeroBookingResponse;
          err := Some (HTTPError 500 "internal error") |};
       {| response := {| CodigoVaga := "1/2024-06-10T03:00:00.000Z/10:00"; Agendou := 1 |};
          err := None |}].
Proof. vm_compute. reflexivity. Qed.

(** With seven goroutines all trying to enter, five get in and two wait. *)
Example gate_is_reached :
  let p := run (Mock.env Mock.natal) (Mock.config "NATAL" 7) [0; 1; 2; 3; 4; 5; 6]%nat
             (spawn (Mock.slot 1 <$> ["09:00:00"; "09:10:00"; "09:20:00"; "09:30:00";
                                      "09:40:00"; "09:50:00"; "10:00:00"])
                    Mock.start) in
  semaphore p = 5%nat /\ inFlight p = 5%nat /\ tally pcWeight (tasks p) = 16%nat.
Proof. vm_compute. auto. Qed.

(** The URL of the times lookup, byte for byte. *)
Example times_url :
  (getAvailableTimes (Mock.env Mock.natal) (Mock.config "NATAL" 2) 1 "2024-06-10"
     Mock.start).2.(wire)
  = [{| request :=
          GET "http://itep.test/api/vagas/horas?ordem=1&data=Mon%2C+10+Jun+2024+03%3A00%3A00+GMT";
        reply := HttpReply 200 (Ok "09:00:00,09:00:00,10:00:00") |}].
Proof. vm_compute. reflexivity. Qed.

Lemma bookAppointment_agendou_not_1_is_error_witness :
  let st := {| world := ["1/2024-06-10T03:00:00.000Z/09:00"]; wire := []; stdout := [] |} in
  (bookAppointment (Mock.env Mock.natal) (Mock.config "NATAL" 2)
     (Mock.slot 1 "09:00:00") st).1
  = Returned (zeroBookingResponse, Some (NotSuccessful 0)).
Proof.
  intros st.
  refine (proj1 (bookAppointment_agendou_not_1_is_error
                   (Mock.env Mock.natal) (Mock.config "NATAL" 2)
                   (Mock.slot 1 "09:00:00") st
                   (POST "http://itep.test/api/vagas" "application/json"
                         "1/2024-06-10T03:00:00.000Z/09:00")
                   "NO" {| CodigoVaga := ""; Agendou := 0 |} _ _ _)).
  - vm_compute. reflexivity.
  - vm_compute. reflexivity.
  - vm_compute. discriminate.
Defined.

Lemma selectUniqueSlots_dedup_witness :
  let chosen :=
    selectUniqueSlots (Mock.config "NATAL" 2)
      [Mock.slot 1 "09:00:00"; Mock.slot 1 "09:00:00"; Mock.slot 1 "10:00:00"] in
  Z.of_nat (length chosen) <= 2 /\ NoDup (Time <$> chosen).
Proof.
  intros chosen.
  pose proof (selectUniqueSlots_dedup (Mock.config "NATAL" 2)
                [Mock.slot 1 "09:00:00"; Mock.slot 1 "09:00:00"; Mock.slot 1 "10:00:00"])
    as H.
  destruct H as (Hlen & Hnodup & _); [vm_compute; discriminate|].
  split; [exact Hlen|exact Hnodup].
Defined.

Lemma gate_admits_at_most_5_witness :
  let slots := Mock.slot 1 <$> ["09:00:00"; "09:10:00"; "09:20:00"; "09:30:00";
                                "09:40:00"; "09:50:00"; "10:00:00"] in
  let p := run (Mock.env Mock.natal) (Mock.config "NATAL" 7)
             [0; 1; 2; 3; 4; 5; 6; 0; 0; 5]%nat (spawn slots Mock.start) in
  (inFlight p <= 5)%nat /\ semaphore p = tokensOut p.
Proof.
  intros slots p.
  pose proof (gate_admits_at_most_5 (Mock.env Mock.natal) (Mock.config "NATAL" 7)
                slots Mock.start p) as H.
  destruct H as (Hflight & Htok & _); [apply steps_run|].
  split; [exact Hflight|exact Htok].
Defined.


Lemma collectAllTimeSlots_skips_failing_order_witness :
  exists allSlots st3,
    collectAllTimeSlots (Mock.env Mock.flaky) (Mock.config "NATAL" 2) insertionSort
      ([Mock.mkOrder 1 "NATAL"] ++ Mock.mkOrder 2 "NATAL" :: [Mock.mkOrder 3 "NATAL"])
      Mock.start
    = ((allSlots, None), st3)
    /\ Permutation allSlots
         ([Mock.slot 1 "09:00:00"; Mock.slot 1 "10:00:00"] ++ [Mock.slot 3 "08:30:00"]).
Proof.
  pose (E := Mock.env Mock.flaky). pose (C := Mock.config "NATAL" 2).
  pose (r1 := collectLoop E C "2024-06-10" [Mock.mkOrder 1 "NATAL"] [] Mock.start).
  pose (r2 := collectOrder E C "2024-06-10" (Mock.mkOrder 2 "NATAL") [] r1.2).
  pose (r3 := collectLoop E C "2024-06-10" [Mock.mkOrder 3 "NATAL"] [] r2.2).
  destruct (collectAllTimeSlots_skips_failing_order E C insertionSort
              [Mock.mkOrder 1 "NATAL"] [Mock.mkOrder 3 "NATAL"] (Mock.mkOrder 2 "NATAL")
              Mock.start r1.2 r2.2 r3.2
              [Mock.slot 1 "09:00:00"; Mock.slot 1 "10:00:00"] r2.1
              [Mock.slot 3 "08:30:00"])
    as (_ & allSlots & Hrun & Hperm & _).
  - exact insertionSort_spec.
  - vm_compute. reflexivity.
  - left. eexists _, _. vm_compute. reflexivity.
  - vm_compute. reflexivity.
  - vm_compute. reflexivity.
  - exists allSlots, r3.2. split; [exact Hrun|exact Hperm].
Defined.

Lemma selection_prefers_earliest_witness :
  let chosen :=
    selectUniqueSlots (Mock.config "NATAL" 5)
      (collectAllTimeSlots (Mock.env Mock.ties) (Mock.config "NATAL" 5) insertionSort
         (Mock.order <$> Mock.ties) Mock.start).1.1 in
  StronglySorted timeLt (Time <$> chosen).
Proof.
  intros chosen.
  exact (proj1 (selection_prefers_earliest (Mock.env Mock.ties) (Mock.config "NATAL" 5)
                  insertionSort (Mock.order <$> Mock.ties) Mock.start
                  insertionSort_spec)).
Defined.

(** With a stable sort the slot taken for 09:00 is the one of order 1. *)
Example stable_sort_takes_first_order :
  selectUniqueSlots (Mock.config "NATAL" 5)
    (collectAllTimeSlots (Mock.env Mock.ties) (Mock.config "NATAL" 5) insertionSort
       (Mock.order <$> Mock.ties) Mock.start).1.1
  = [Mock.slot 1 "08:00:00"; Mock.slot 1 "08:30:00"; Mock.slot 1 "08:40:00";
     Mock.slot 1 "08:50:00"; Mock.slot 1 "09:00:00"].
Proof. vm_compute. reflexivity. Qed.

(** C7 fails as stated. Orders 1 and 2 both offer 09:00:00 among thirteen
    collected slots.  A [sort.Slice] within its documented contract may put
    the slot of order 2 in front of the slot of order 1 (Go's own
    implementation does so on these thirteen: it partitions slices of more
    than 12 elements around the median of elements 3, 6 and 9, and the first
    exchange of the partition moves the last slot, 09:00:00 of order 2, into
    position 1, in front of 09:00:00 of order 1 at position 2).  The slot
    chosen for 09:00:00 is then the one of order 2, which is not the first
    order in input order. *)
Lemma tie_break_follows_sort_not_input_order :
  SortSliceSpec tieReversingSort
  /\ let collected :=
       (collectLoop (Mock.env Mock.ties) (Mock.config "NATAL" 5) "2024-06-10"
          (Mock.order <$> Mock.ties) [] Mock.start).1 in
     let chosen :=
       selectUniqueSlots (Mock.config "NATAL" 5)
         (collectAllTimeSlots (Mock.env Mock.ties) (Mock.config "NATAL" 5)
            tieReversingSort (Mock.order <$> Mock.ties) Mock.start).1.1 in
     chosen = [Mock.slot 1 "08:00:00"; Mock.slot 1 "08:30:00"; Mock.slot 1 "08:40:00";
               Mock.slot 1 "08:50:00"; Mock.slot 2 "09:00:00"]
     /\ firstWithTime "09:00:00" collected = Some (Mock.slot 1 "09:00:00")
     /\ ~ (forall r, r ∈ chosen -> firstWithTime (Time r) collected = Some r).
Proof.
  split; [exact tieReversingSort_spec|].
  split; [vm_compute; reflexivity|]. split; [vm_compute; reflexivity|].
  intros Hclaim. specialize (Hclaim (Mock.slot 2 "09:00:00")).
  assert (firstWithTime (Time (Mock.slot 2 "09:00:00"))
            (collectLoop (Mock.env Mock.ties) (Mock.config "NATAL" 5) "2024-06-10"
               (Mock.order <$> Mock.ties) [] Mock.start).1
          = Some (Mock.slot 1 "09:00:00")) as Hfirst by (vm_compute; reflexivity).
  rewrite Hfirst in Hclaim. discriminate Hclaim.
  vm_compute. repeat (first [apply list_elem_of_here | apply list_elem_of_further]).
Qed.




(** A short time behind a date that does not parse: the call returns
    "invalid date format" and the truncation is never reached. *)
Example short_time_bad_date_returns_error :
  let slot := {| OrderID := 1; Date := "10/06/2024"; Time := "9:00" |} in
  (String.length (Time slot) < 5)%nat
  /\ (bookAppointment (Mock.env Mock.natal) (Mock.config "NATAL" 2) slot Mock.start).1
     = Returned (zeroBookingResponse,
                 Some (Wrapped "invalid date format"
                         (LibError "parsing time: cannot parse"))).
Proof. split; [vm_compute; lia|vm_compute; reflexivity]. Qed.

Lemma truncation_needs_5_bytes_witness :
  slicePrefix (Time (Mock.slot 1 "09:00:00")) 5 = Returned "09:00"
  /\ (exists msg, slicePrefix (Time (Mock.slot 1 "9:00")) 5 = Panicked msg)
  /\ (exists msg,
        (bookAppointment (Mock.env Mock.natal) (Mock.config "NATAL" 2)
           (Mock.slot 1 "9:00") Mock.start).1 = Panicked msg).
Proof.
  split; [|split].
  - refine (proj1 (proj1 (proj2 (truncation_needs_5_bytes
                                   (Mock.env Mock.natal) (Mock.config "NATAL" 2)
                                   (Mock.slot 1 "09:00:00") Mock.start)) _)).
    vm_compute. lia.
  - refine (proj1 (proj1 (truncation_needs_5_bytes
                            (Mock.env Mock.natal) (Mock.config "NATAL" 2)
                            (Mock.slot 1 "9:00") Mock.start)) _).
    vm_compute. lia.
  - refine (proj2 (proj2 (proj2 (truncation_needs_5_bytes
                                   (Mock.env Mock.natal) (Mock.config "NATAL" 2)
                                   (Mock.slot 1 "9:00") Mock.start))) _).
    split; [eexists; vm_compute; reflexivity|vm_compute; lia].
Defined.

Lemma collectAllTimeSlots_never_errors_witness :
  (collectAllTimeSlots (Mock.env Mock.dark) (Mock.config "NATAL" 2) insertionSort
     (Mock.order <$> Mock.dark) Mock.start).1 = ([], None).
Proof.
  refine (proj2 (proj2 (collectAllTimeSlots_never_errors
                          (Mock.env Mock.dark) (Mock.config "NATAL" 2) insertionSort
                          (Mock.order <$> Mock.dark) Mock.start)) insertionSort_spec _).
  intros order st' Hin.
  apply elem_of_cons in Hin as [->|Hin].
  - left. eexists _, _. vm_compute. reflexivity.
  - apply elem_of_cons in Hin as [->|Hin]; [|inversion Hin].
    right. eexists _, _, _, _. repeat split; vm_compute; reflexivity.
Defined.

(** * Further properties *)

(** ** The next working day *)

Lemma month_cases (m : Z) :
  1 <= m <= 12 ->
  m = 1 \/ m = 2 \/ m = 3 \/ m = 4 \/ m = 5 \/ m = 6
  \/ m = 7 \/ m = 8 \/ m = 9 \/ m = 10 \/ m = 11 \/ m = 12.
Proof. lia. Qed.

Lemma daysIn_range (m year : Z) : 28 <= daysIn m year <= 31.
Proof.
  unfold daysIn. destruct (m =? 2); [destruct (isLeap year); lia|].
  destruct (_ || _); lia.
Qed.

Lemma addDay_valid (t : GoTime) : validDate t -> validDate (addDay t).
Proof.
  unfold validDate, addDay. intros [Hm Hd].
  destruct (Day t <? daysIn (Month t) (Year t)) eqn:Hday.
  - apply Z.ltb_lt in Hday. cbn. lia.
  - destruct (Month t <? 12) eqn:Hmonth; cbn.
    + apply Z.ltb_lt in Hmonth. pose proof (daysIn_range (Month t + 1) (Year t)). lia.
    + pose proof (daysIn_range 1 (Year t + 1)). lia.
Qed.

Lemma isLeap_spec (year : Z) :
  isLeap year = true
  <-> year mod 4 = 0 /\ (year mod 100 <> 0 \/ year mod 400 = 0).
Proof.
  unfold isLeap. rewrite andb_true_iff, orb_true_iff, negb_true_iff.
  rewrite !Z.eqb_eq, Z.eqb_neq. reflexivity.
Qed.

Ltac fold_numerals :=
  repeat first
    [ progress change (1 + 1) with 2 | progress change (2 + 1) with 3
    | progress change (3 + 1) with 4 | progress change (4 + 1) with 5
    | progress change (5 + 1) with 6 | progress change (6 + 1) with 7
    | progress change (7 + 1) with 8 | progress change (8 + 1) with 9
    | progress change (9 + 1) with 10 | progress change (10 + 1) with 11
    | progress change (11 + 1) with 12 ];
  repeat match goal with
    | |- context [nth ?n ?l 0] =>
        let v := eval vm_compute in (nth n l 0) in
        progress change (nth n l 0) with v
    | |- context [Z.pos ?p <? 3] =>
        let v := eval vm_compute in (Z.pos p <? 3) in change (Z.pos p <? 3) with v
    end.

(** The day after is the next day of the week. *)
Lemma weekday_addDay (t : GoTime) :
  validDate t -> weekday (addDay t) = (weekday t + 1) mod 7.
Proof.
  intros [Hm Hd]. unfold addDay.
  destruct (Day t <? daysIn (Month t) (Year t)) eqn:Hday.
  - unfold weekday. cbn [timeDate Year Month Day].
    rewrite Z.add_mod_idemp_l by lia. f_equal. ring.
  - apply Z.ltb_ge in Hday. assert (Day t = daysIn (Month t) (Year t)) as Hlast by lia.
    unfold weekday. rewrite Z.add_mod_idemp_l by lia. rewrite Hlast. clear Hd Hday Hlast.
    set (y := Year t).
    destruct (month_cases _ Hm) as [H|[H|[H|[H|[H|[H|[H|[H|[H|[H|[H|H]]]]]]]]]]];
      rewrite H; clear H Hm; fold_numerals.
    2: { (* February *)
      change (daysIn 2 y) with (if isLeap y then 29 else 28).
      destruct (isLeap y) eqn:Hleap; cbn -[Z.div Z.modulo].
      - apply isLeap_spec in Hleap. Z.div_mod_to_equations. lia.
      - assert (~ (y mod 4 = 0 /\ (y mod 100 <> 0 \/ y mod 400 = 0)))
          as Hn by (rewrite <- isLeap_spec, Hleap; discriminate).
        Z.div_mod_to_equations. lia. }
    all: cbn -[Z.div Z.modulo]; Z.div_mod_to_equations; lia.
Qed.

Lemma weekday_range (t : GoTime) : 0 <= weekday t <= 6.
Proof. unfold weekday. pose proof (Z.mod_pos_bound (let y := if Month t <? 3 then Year t - 1 else Year t in
    y + y / 4 - y / 100 + y / 400
    + nth (Z.to_nat (Month t - 1)) [0; 3; 2; 5; 0; 3; 5; 1; 4; 6; 2; 4] 0 + Day t) 7).
  cbv zeta in *. lia.
Qed.

Lemma skipWeekend_working (fuel : nat) (t : GoTime) :
  1 <= weekday t <= 5 -> skipWeekend (S fuel) t = t.
Proof.
  intros Hw. cbn [skipWeekend].
  destruct (weekday t =? 6) eqn:H6; [apply Z.eqb_eq in H6; lia|].
  destruct (weekday t =? 0) eqn:H0; [apply Z.eqb_eq in H0; lia|]. reflexivity.
Qed.

Lemma skipWeekend_weekend (fuel : nat) (t : GoTime) :
  weekday t = 6 \/ weekday t = 0 ->
  skipWeekend (S fuel) t = skipWeekend fuel (addDay t).
Proof.
  intros Hw. cbn [skipWeekend].
  destruct Hw as [-> | ->]; reflexivity.
Qed.

(** X1. When the clock shows a calendar date, [getNextWorkingDay] returns a
    calendar date that falls on Monday to Friday and lies one, two or three
    days after today; the [for] loop that skips the weekend has stopped by
    then, however many more iterations it were given. *)
Theorem getNextWorkingDay_is_working_day {W : Type} (env : Env W) (st : State W) :
  validDate (now env (world st)) ->
  validDate (getNextWorkingDay env st)
  /\ 1 <= weekday (getNextWorkingDay env st) <= 5
  /\ (exists k, (1 <= k <= 3)%nat
        /\ getNextWorkingDay env st = Nat.iter k addDay (now env (world st)))
  /\ (forall fuel, (2 <= fuel)%nat ->
        skipWeekend fuel (addDay (now env (world st))) = getNextWorkingDay env st).
Proof.
  intros Hnow. unfold getNextWorkingDay.
  set (t0 := now env (world st)) in *. set (t1 := addDay t0).
  assert (validDate t1) as H1 by (apply addDay_valid, Hnow).
  assert (validDate (addDay t1)) as H2 by (apply addDay_valid, H1).
  assert (validDate (addDay (addDay t1))) as H3 by (apply addDay_valid, H2).
  pose proof (weekday_range t1) as Hr.
  pose proof (weekday_addDay t1 H1) as Hw2.
  pose proof (weekday_addDay (addDay t1) H2) as Hw3.
  assert (weekday t1 = 6 \/ weekday t1 = 0 \/ 1 <= weekday t1 <= 5) as [H6|[H0|Hwork]]
    by lia.
  - (* tomorrow is a Saturday *)
    rewrite H6 in Hw2. change ((6 + 1) mod 7) with 0 in Hw2.
    rewrite Hw2 in Hw3. change ((0 + 1) mod 7) with 1 in Hw3.
    assert (forall fuel, (2 <= fuel)%nat ->
              skipWeekend fuel t1 = addDay (addDay t1)) as Hloop.
    { intros [|[|fuel]] Hf; try lia.
      rewrite skipWeekend_weekend by auto. rewrite skipWeekend_weekend by auto.
      destruct fuel; [reflexivity|]. apply skipWeekend_working. lia. }
    rewrite (Hloop 2%nat) by lia.
    split; [exact H3|]. split; [lia|]. split; [exists 3%nat; split; [lia|reflexivity]|].
    exact Hloop.
  - (* tomorrow is a Sunday *)
    rewrite H0 in Hw2. change ((0 + 1) mod 7) with 1 in Hw2.
    assert (forall fuel, (2 <= fuel)%nat -> skipWeekend fuel t1 = addDay t1) as Hloop.
    { intros [|[|fuel]] Hf; try lia.
      rewrite skipWeekend_weekend by auto. apply skipWeekend_working. lia. }
    rewrite (Hloop 2%nat) by lia.
    split; [exact H2|]. split; [lia|]. split; [exists 2%nat; split; [lia|reflexivity]|].
    exact Hloop.
  - assert (forall fuel, (2 <= fuel)%nat -> skipWeekend fuel t1 = t1) as Hloop.
    { intros [|fuel] Hf; [lia|]. apply skipWeekend_working, Hwork. }
    rewrite (Hloop 2%nat) by lia.
    split; [exact H1|]. split; [exact Hwork|].
    split; [exists 1%nat; split; [lia|reflexivity]|]. exact Hloop.
Qed.

Lemma getNextWorkingDay_is_working_day_witness :
  formatISODate (getNextWorkingDay (Mock.env Mock.natal) Mock.start) = "2024-06-10"
  /\ 1 <= weekday (getNextWorkingDay (Mock.env Mock.natal) Mock.start) <= 5.
Proof.
  split; [vm_compute; reflexivity|].
  refine (proj1 (proj2 (getNextWorkingDay_is_working_day
                          (Mock.env Mock.natal) Mock.start _))).
  vm_compute. intuition discriminate.
Defined.

(** ** Dates printed and read back *)

Lemma digitChar_digit (d : Z) :
  0 <= d <= 9 -> isDigit (digitChar d) = true /\ digitVal (digitChar d) = d.
Proof.
  intros Hd. unfold isDigit, digitVal, digitChar.
  rewrite N_ascii_embedding by lia. rewrite Z2N.id by lia.
  split; [|lia]. apply andb_true_iff. split; apply Z.leb_le; lia.
Qed.

(** A calendar date of the years 0 to 9999 printed as [2006-01-02] is read
    back by [time.Parse] as that date. *)
Lemma parseDate_formatISODate_valid (t : GoTime) :
  validDate t -> 0 <= Year t <= 9999 ->
  parseDate (formatISODate t) = Ok (timeDate (Year t) (Month t) (Day t) 0 0 0 0).
Proof.
  intros [Hm Hd] Hy. pose proof (daysIn_range (Month t) (Year t)) as Hr.
  unfold formatISODate, pad4, pad3, pad2. cbv [String.append].
  set (y := Year t) in *. set (m := Month t) in *. set (d := Day t) in *.
  assert (0 <= y / 1000 <= 9) as A0 by (Z.div_mod_to_equations; lia).
  assert (0 <= y mod 1000 / 100 <= 9) as A1 by (Z.div_mod_to_equations; lia).
  assert (0 <= y mod 1000 mod 100 / 10 <= 9) as A2 by (Z.div_mod_to_equations; lia).
  assert (0 <= y mod 1000 mod 100 mod 10 <= 9) as A3 by (Z.div_mod_to_equations; lia).
  assert (0 <= m / 10 <= 9) as M0 by (Z.div_mod_to_equations; lia).
  assert (0 <= m mod 10 <= 9) as M1 by (Z.div_mod_to_equations; lia).
  assert (0 <= d / 10 <= 9) as D0 by (Z.div_mod_to_equations; lia).
  assert (0 <= d mod 10 <= 9) as D1 by (Z.div_mod_to_equations; lia).
  unfold parseDate. cbv beta iota.
  destruct (digitChar_digit _ A0) as [-> ->], (digitChar_digit _ A1) as [-> ->],
    (digitChar_digit _ A2) as [-> ->], (digitChar_digit _ A3) as [-> ->],
    (digitChar_digit _ M0) as [-> ->], (digitChar_digit _ M1) as [-> ->],
    (digitChar_digit _ D0) as [-> ->], (digitChar_digit _ D1) as [-> ->].
  cbn [andb Ascii.eqb Bool.eqb]. cbv zeta.
  assert (1000 * (y / 1000) + 100 * (y mod 1000 / 100)
          + 10 * (y mod 1000 mod 100 / 10) + y mod 1000 mod 100 mod 10 = y) as ->
    by (Z.div_mod_to_equations; lia).
  assert (10 * (m / 10) + m mod 10 = m) as -> by (Z.div_mod_to_equations; lia).
  assert (10 * (d / 10) + d mod 10 = d) as -> by (Z.div_mod_to_equations; lia).
  assert ((1 <=? m) && (m <=? 12) = true) as ->
    by (apply andb_true_iff; split; apply Z.leb_le; lia).
  assert ((1 <=? d) && (d <=? daysIn m y) = true) as ->
    by (apply andb_true_iff; split; apply Z.leb_le; lia).
  reflexivity.
Qed.

(** ** The lookups *)

Lemma parseDate_valid (s : string) (date : GoTime) :
  parseDate s = Ok date -> validDate date /\ 0 <= Year date <= 9999.
Proof.
  unfold parseDate.
  do 10 (destruct s as [|? s]; [discriminate|]).
  destruct s; [|discriminate].
  destruct (isDigit a) eqn:D0; [|discriminate].
  destruct (isDigit a0) eqn:D1; [|discriminate].
  destruct (isDigit a1) eqn:D2; [|discriminate].
  destruct (isDigit a2) eqn:D3; [|discriminate].
  cbn [andb].
  destruct (_ && _ && _ && _ && _ && _); [|discriminate].
  apply isDigit_range in D0 as [? _], D1 as [? _], D2 as [? _], D3 as [? _].
  destruct ((1 <=? _) && (_ <=? 12)) eqn:Hm; [|discriminate].
  destruct ((1 <=? _) && (_ <=? daysIn _ _)) eqn:Hd; [|discriminate].
  intros [= <-]. unfold validDate. cbn [Year Month Day].
  apply andb_true_iff in Hm as [Hm1 Hm2], Hd as [Hd1 Hd2].
  apply Z.leb_le in Hm1, Hm2, Hd1, Hd2. lia.
Qed.

Section LookupFacts.

Context {W : Type}.
Variable env : Env W.
Variable config : Config.

(** X2. [getAvailableTimes] makes no request when the date string does not
    parse; when it makes one, it returns times only for a reply with status
    200 whose body decodes, and answers any other status with an error that
    carries the status and the raw body. *)
Theorem getAvailableTimes_status_gate (orderID : Z) (dateStr : string) (st : State W) :
  (forall e, parseDate dateStr = Err e ->
     getAvailableTimes env config orderID dateStr st = (Err e, st))
  /\ (forall times, (getAvailableTimes env config orderID dateStr st).1 = Ok times ->
        exists req body,
          wire (getAvailableTimes env config orderID dateStr st).2
            = wire st ++ [{| request := req; reply := HttpReply 200 (Ok body) |}]
          /\ unmarshalStrings env body = Ok times)
  /\ (forall req status body,
        wire (getAvailableTimes env config orderID dateStr st).2
          = wire st ++ [{| request := req; reply := HttpReply status (Ok body) |}] ->
        status <> 200 ->
        (getAvailableTimes env config orderID dateStr st).1
          = Err (HTTPError status body)).
Proof.
  unfold getAvailableTimes, send.
  destruct (parseDate dateStr) as [date|perr]; cbn [fst snd].
  2: { split; [intros e [= <-]; reflexivity|]. split.
       - intros times H. discriminate H.
       - intros req status body H. exfalso. exact (app_singleton_self_absurd _ _ H). }
  split; [intros e H; discriminate H|].
  destruct (roundTrip env _ (world st)) as [[herr|status [body|rerr]] w1];
    cbn [fst snd wire].
  - split; [intros times H; discriminate H|].
    intros req s b H. apply app_inv_head in H. discriminate H.
  - destruct (status =? http_StatusOK) eqn:Hstatus; cbn [negb fst snd wire].
    + apply Z.eqb_eq in Hstatus. unfold http_StatusOK in Hstatus. subst status.
      destruct (unmarshalStrings env body) as [times|uerr] eqn:Hdecode;
        cbn [fst snd wire].
      * split.
        -- intros ts [= <-]. eexists _, body. split; [reflexivity|exact Hdecode].
        -- intros req s b H Hs. apply app_inv_head in H. simplify_eq.
      * split; [intros ts H; discriminate H|].
        intros req s b H Hs. apply app_inv_head in H. simplify_eq.
    + split; [intros ts H; discriminate H|].
      intros req s b H Hs. apply app_inv_head in H. simplify_eq. reflexivity.
  - split; [intros times H; discriminate H|].
    intros req s b H. apply app_inv_head in H. discriminate H.
Qed.

(** X3. [getAvailableDates] and [getAvailableOrders] never look at the
    status of the reply: whatever the status, a body that decodes is
    returned as the result. *)
Theorem lookups_ignore_status (orderID : Z) (st : State W)
    (req : Request) (status : Z) (body : string) :
  (forall dates,
     wire (getAvailableDates env config orderID st).2
       = wire st ++ [{| request := req; reply := HttpReply status (Ok body) |}] ->
     unmarshalStrings env body = Ok dates ->
     (getAvailableDates env config orderID st).1 = Ok dates)
  /\ (forall orders,
        wire (getAvailableOrders env config st).2
          = wire st ++ [{| request := req; reply := HttpReply status (Ok body) |}] ->
        unmarshalOrders env body = Ok orders ->
        (getAvailableOrders env config st).1 = Ok orders).
Proof.
  split.
  - intros dates. unfold getAvailableDates, send.
    destruct (roundTrip env _ (world st)) as [[herr|s [b|rerr]] w1];
      cbn [fst snd wire]; intros H.
    + apply app_inv_head in H. simplify_eq.
    + destruct (unmarshalStrings env b) eqn:Hd; cbn [fst snd wire] in H;
        apply app_inv_head in H; simplify_eq.
      all: intros Hb; rewrite Hb in Hd; simplify_eq; reflexivity.
    + apply app_inv_head in H. simplify_eq.
  - intros orders. unfold getAvailableOrders, send.
    destruct (roundTrip env _ (world st)) as [[herr|s [b|rerr]] w1];
      cbn [fst snd wire]; intros H.
    + apply app_inv_head in H. simplify_eq.
    + destruct (unmarshalOrders env b) eqn:Hd; cbn [fst snd wire] in H;
        apply app_inv_head in H; simplify_eq.
      all: intros Hb; rewrite Hb in Hd; simplify_eq; reflexivity.
    + apply app_inv_head in H. simplify_eq.
Qed.

End LookupFacts.

(** ** The URL of the times lookup *)

Lemma append_cons (c : ascii) (a b : string) : String c a +:+ b = String c (a +:+ b).
Proof. reflexivity. Qed.

Lemma append_nil (b : string) : "" +:+ b = b.
Proof. reflexivity. Qed.

Lemma append_assoc (a b c : string) : (a +:+ b) +:+ c = a +:+ (b +:+ c).
Proof.
  induction a as [|x a IH]; [reflexivity|].
  rewrite !append_cons, IH. reflexivity.
Qed.

Lemma queryEscape_app (a b : string) :
  queryEscape (a +:+ b) = queryEscape a +:+ queryEscape b.
Proof.
  induction a as [|c a IH]; [reflexivity|].
  rewrite append_cons. cbn [queryEscape]. rewrite IH.
  destruct (unreserved c); [reflexivity|].
  destruct (Ascii.eqb c " "); reflexivity.
Qed.

Lemma unreserved_digitChar (d : Z) : 0 <= d <= 9 -> unreserved (digitChar d) = true.
Proof.
  intros Hd. unfold unreserved, digitChar. rewrite N_ascii_embedding by lia.
  rewrite Z2N.id by lia.
  assert ((48 <=? 48 + d) && (48 + d <=? 57) = true) as ->
    by (apply andb_true_iff; split; apply Z.leb_le; lia).
  rewrite orb_true_r. reflexivity.
Qed.

Lemma queryEscape_pad2 (n : Z) : 0 <= n <= 99 -> queryEscape (pad2 n) = pad2 n.
Proof.
  intros Hn. unfold pad2. cbn [queryEscape].
  rewrite !unreserved_digitChar by (Z.div_mod_to_equations; lia). reflexivity.
Qed.

Lemma queryEscape_pad4 (n : Z) : 0 <= n <= 9999 -> queryEscape (pad4 n) = pad4 n.
Proof.
  intros Hn. unfold pad4, pad3, pad2. cbn [queryEscape].
  rewrite !unreserved_digitChar by (Z.div_mod_to_equations; lia). reflexivity.
Qed.

Lemma queryEscape_shortDayName (d : Z) :
  queryEscape (shortDayName d) = shortDayName d.
Proof.
  unfold shortDayName. generalize (Z.to_nat d). intros n.
  do 7 (destruct n as [|n]; [reflexivity|]). destruct n; reflexivity.
Qed.

Lemma queryEscape_shortMonthName (m : Z) :
  queryEscape (shortMonthName m) = shortMonthName m.
Proof.
  unfold shortMonthName. generalize (Z.to_nat (m - 1)). intros n.
  do 12 (destruct n as [|n]; [reflexivity|]). destruct n; reflexivity.
Qed.

(** The value of the [data] parameter: [Mon, 02 Jan 2006 03:00:00 GMT] with
    the comma, the blanks and the colons escaped. *)
Lemma encodedDate_spec (date : GoTime) :
  validDate date -> 0 <= Year date <= 9999 ->
  queryEscape (formatRFC1123Date date +:+ " 03:00:00 GMT")
  = shortDayName (weekday date) +:+ "%2C+" +:+ pad2 (Day date) +:+ "+"
    +:+ shortMonthName (Month date) +:+ "+" +:+ pad4 (Year date)
    +:+ "+03%3A00%3A00+GMT".
Proof.
  intros [Hm Hd] Hy. pose proof (daysIn_range (Month date) (Year date)).
  unfold formatRFC1123Date. rewrite !queryEscape_app.
  rewrite queryEscape_shortDayName, queryEscape_shortMonthName.
  rewrite queryEscape_pad2, queryEscape_pad4 by lia.
  change (queryEscape ", ") with "%2C+". change (queryEscape " ") with "+".
  change (queryEscape " 03:00:00 GMT") with "+03%3A00%3A00+GMT".
  rewrite !append_assoc. reflexivity.
Qed.

Section TimesURL.

Context {W : Type}.
Variable env : Env W.
Variable config : Config.

(** X4. For a date string that parses, [getAvailableTimes] makes exactly one
    request, a GET of [{base}/vagas/horas?ordem={id}&data=...] whose date
    value is the escaped form of [Mon, 02 Jan 2006 03:00:00 GMT]: day name,
    [%2C+], two-digit day, [+], month name, [+], four-digit year and the
    fixed [+03%3A00%3A00+GMT]. *)
Theorem getAvailableTimes_request (orderID : Z) (dateStr : string)
    (date : GoTime) (st : State W) :
  parseDate dateStr = Ok date ->
  exists r,
    wire (getAvailableTimes env config orderID dateStr st).2
    = wire st
      ++ [{| request :=
               GET (BaseURL config +:+ "/vagas/horas?ordem=" +:+ itoa orderID
                    +:+ "&data=" +:+ shortDayName (weekday date) +:+ "%2C+"
                    +:+ pad2 (Day date) +:+ "+" +:+ shortMonthName (Month date)
                    +:+ "+" +:+ pad4 (Year date) +:+ "+03%3A00%3A00+GMT");
             reply := r |}].
Proof.
  intros Hparse. destruct (parseDate_valid _ _ Hparse) as [Hvalid Hyear].
  unfold getAvailableTimes, send. rewrite Hparse. cbv zeta.
  rewrite (encodedDate_spec date Hvalid Hyear).
  destruct (roundTrip env _ (world st)) as [[herr|status [body|rerr]] w1];
    cbn [fst snd wire]; try (eexists; reflexivity).
  destruct (negb _); [eexists; reflexivity|].
  destruct (unmarshalStrings env body); eexists; reflexivity.
Qed.

End TimesURL.

Lemma getAvailableTimes_request_witness :
  exists r,
    wire (getAvailableTimes (Mock.env Mock.natal) (Mock.config "NATAL" 2) 1
            "2024-06-10" Mock.start).2
    = [{| request :=
            GET "http://itep.test/api/vagas/horas?ordem=1&data=Mon%2C+10+Jun+2024+03%3A00%3A00+GMT";
          reply := r |}].
Proof.
  destruct (getAvailableTimes_request (Mock.env Mock.natal) (Mock.config "NATAL" 2) 1
              "2024-06-10" (timeDate 2024 6 10 0 0 0 0) Mock.start) as [r Hr].
  - vm_compute. reflexivity.
  - exists r. rewrite Hr. vm_compute. reflexivity.
Defined.

Lemma getAvailableTimes_status_gate_witness :
  (exists e, getAvailableTimes (Mock.env Mock.dark) (Mock.config "NATAL" 2) 2
               "10/06/2024" Mock.start = (Err e, Mock.start))
  /\ (getAvailableTimes (Mock.env Mock.dark) (Mock.config "NATAL" 2) 2
        "2024-06-10" Mock.start).1 = Err (HTTPError 503 "unavailable")
  /\ (exists req body,
        wire (getAvailableTimes (Mock.env Mock.natal) (Mock.config "NATAL" 2) 1
                "2024-06-10" Mock.start).2
        = [{| request := req; reply := HttpReply 200 (Ok body) |}]
        /\ Mock.decodeStrings body = Ok ["09:00:00"; "09:00:00"; "10:00:00"]).
Proof.
  split; [|split].
  - destruct (parseDate "10/06/2024") as [date|e] eqn:Hparse; [discriminate Hparse|].
    exists e.
    exact (proj1 (getAvailableTimes_status_gate (Mock.env Mock.dark)
                    (Mock.config "NATAL" 2) 2 "10/06/2024" Mock.start) e Hparse).
  - refine (proj2 (proj2 (getAvailableTimes_status_gate (Mock.env Mock.dark)
                            (Mock.config "NATAL" 2) 2 "2024-06-10" Mock.start))
              (GET (Mock.timesURL (Mock.open 2 "NATAL" "" ""))) 503 "unavailable" _ _).
    + vm_compute. reflexivity.
    + discriminate.
  - refine (proj1 (proj2 (getAvailableTimes_status_gate (Mock.env Mock.natal)
                            (Mock.config "NATAL" 2) 1 "2024-06-10" Mock.start))
              ["09:00:00"; "09:00:00"; "10:00:00"] _).
    vm_compute. reflexivity.
Defined.

Lemma lookups_ignore_status_witness :
  (getAvailableDates (Mock.env Mock.dark) (Mock.config "NATAL" 2) 7 Mock.start).1
  = Ok ["not found"].
Proof.
  refine (proj1 (lookups_ignore_status (Mock.env Mock.dark) (Mock.config "NATAL" 2) 7
                   Mock.start
                   (GET "http://itep.test/api/ordens/public/datas?ordem=7")
                   404 "not found") ["not found"] _ _).
  - vm_compute. reflexivity.
  - vm_compute. reflexivity.
Defined.

(** ** The booking call, once more *)
Section BookingEffects.

Context {W : Type}.
Variable env : Env W.
Variable config : Config.

Ltac book_cases slot st :=
  unfold bookAppointment, send, slicePrefix;
  destruct (parseDate (Date slot)) as [date|perr] eqn:Hparse; cbn [fst snd];
  [ destruct (String.length (Time slot) <? 5)%nat eqn:Hlen; cbn [fst snd];
    [ | destruct (marshalBookingRequest env _) as [requestBody|merr] eqn:Hmarshal;
        cbn [fst snd];
        [ destruct (roundTrip env _ (world st)) as [[herr|status [responseBody|rerr]] w1]
            eqn:Hrt; cbn [fst snd wire];
          [ | destruct (status =? http_StatusOK) eqn:Hstatus; cbn [negb fst snd wire];
              [ destruct (unmarshalBookingResponse env responseBody)
                  as [decoded|uerr] eqn:Hdecode; cbn [fst snd wire];
                [ destruct (Agendou decoded =? 1) eqn:Hagendou; cbn [negb fst snd wire]
                | ]
              | ]
            | ]
        | ] ]
  | ].

(** The request [bookAppointment] builds is the one [bookingBody] encodes. *)
Lemma bookingBody_request (slot : TimeSlot) (date : GoTime) :
  parseDate (Date slot) = Ok date ->
  marshalBookingRequest env
    {| IDOrdem := OrderID slot;
       Data := formatBookingDate
                 (timeDate (Year date) (Month date) (Day date) 3 0 0 0);
       Hora := substring 0 5 (Time slot) |}
  = bookingBody env slot.
Proof.
  intros Hparse. unfold bookingBody.
  rewrite (parseDate_bookingDate _ _ Hparse). reflexivity.
Qed.

(** A call leaves the state as it found it, or adds the slot's booking
    request to the wire. *)
Lemma bookAppointment_effect (slot : TimeSlot) (st : State W) :
  (bookAppointment env config slot st).2 = st
  \/ exists ev,
       wire (bookAppointment env config slot st).2 = wire st ++ [ev]
       /\ bookingPostFor env config slot ev.
Proof.
  book_cases slot st; try (left; reflexivity).
  all: right; eexists; split; [reflexivity|].
  all: eexists _, requestBody; cbn [request].
  all: split; [reflexivity|]; split; [exact Hmarshal|]; cbn [IDOrdem Data Hora].
  all: split; [reflexivity|]; split; [exact (parseDate_bookingDate _ _ Hparse)|].
  all: split; [reflexivity|]; apply length_substring_prefix.
  all: apply Nat.ltb_ge in Hlen; exact Hlen.
Qed.

(** X5. [bookAppointment] returns a response with a nil error exactly when
    its request was answered with status 200 and a body that decodes to a
    response whose [agendou] is 1, and the response returned is the decoded
    one; with a non-nil error the response returned is the empty
    [BookingResponse{}]. *)
Theorem bookAppointment_success_iff (slot : TimeSlot) (st : State W) :
  (forall bookingResponse,
     (bookAppointment env config slot st).1 = Returned (bookingResponse, None)
     <-> exists req body,
           wire (bookAppointment env config slot st).2
             = wire st ++ [{| request := req; reply := HttpReply 200 (Ok body) |}]
           /\ unmarshalBookingResponse env body = Ok bookingResponse
           /\ Agendou bookingResponse = 1)
  /\ (forall bookingResponse e,
        (bookAppointment env config slot st).1 = Returned (bookingResponse, Some e) ->
        bookingResponse = zeroBookingResponse).
Proof.
  split.
  - intros bookingResponse. book_cases slot st; split;
      try (intros H; discriminate H);
      try (intros (req & body & Hwire & Hbody & Hone);
           first [ exfalso; exact (app_singleton_self_absurd _ _ Hwire)
                 | apply app_inv_head in Hwire; simplify_eq ]).
    all: try (apply Z.eqb_neq in Hagendou; congruence).
    all: try congruence.
    intros [= <-]. apply Z.eqb_eq in Hagendou. apply Z.eqb_eq in Hstatus.
    unfold http_StatusOK in Hstatus. subst status. eauto 6.
  - intros bookingResponse e. book_cases slot st; intros H; simplify_eq; reflexivity.
Qed.

(** X6. [bookAppointment] makes no request and leaves the state as it was
    when the slot's date does not parse, or the request cannot be encoded;
    with a slot whose date parses, whose time has at least 5 bytes and whose
    request encodes to [body], it makes exactly one request, the POST of
    [body] to [{base}/vagas] as [application/json], whatever comes back. *)
Theorem bookAppointment_sends_iff (slot : TimeSlot) (st : State W) :
  (forall e, parseDate (Date slot) = Err e ->
     (bookAppointment env config slot st).2 = st)
  /\ (forall e, (5 <= String.length (Time slot))%nat -> bookingBody env slot = Err e ->
        (bookAppointment env config slot st).2 = st)
  /\ (forall date body,
        parseDate (Date slot) = Ok date ->
        (5 <= String.length (Time slot))%nat ->
        bookingBody env slot = Ok body ->
        let req := POST (BaseURL config +:+ "/vagas") "application/json" body in
        (bookAppointment env config slot st).2
        = {| world := (roundTrip env req (world st)).2;
             wire := wire st ++ [{| request := req;
                                    reply := (roundTrip env req (world st)).1 |}];
             stdout := stdout st |}).
Proof.
  split; [|split].
  - intros e He. unfold bookAppointment. rewrite He. reflexivity.
  - intros e Hlong He. unfold bookAppointment, slicePrefix.
    destruct (parseDate (Date slot)) as [date|perr] eqn:Hparse; [|reflexivity].
    apply Nat.ltb_ge in Hlong. rewrite Hlong.
    rewrite (bookingBody_request _ _ Hparse), He. reflexivity.
  - intros date body Hparse Hlong Hbody req.
    unfold bookAppointment, slicePrefix, send. rewrite Hparse.
    apply Nat.ltb_ge in Hlong. rewrite Hlong.
    rewrite (bookingBody_request _ _ Hparse), Hbody. fold req.
    destruct (roundTrip env req (world st)) as [[herr|status [responseBody|rerr]] w1];
      cbn [fst snd]; try reflexivity.
    + destruct (negb _); [reflexivity|].
      destruct (unmarshalBookingResponse env responseBody); [|reflexivity].
      destruct (negb _); reflexivity.
Qed.

End BookingEffects.

Lemma bookAppointment_success_iff_witness :
  (bookAppointment (Mock.env Mock.natal) (Mock.config "NATAL" 2)
     (Mock.slot 1 "09:00:00") Mock.start).1
  = Returned ({| CodigoVaga := "1/2024-06-10T03:00:00.000Z/09:00"; Agendou := 1 |}, None).
Proof.
  apply (proj1 (bookAppointment_success_iff (Mock.env Mock.natal)
                  (Mock.config "NATAL" 2) (Mock.slot 1 "09:00:00") Mock.start)).
  eexists _, "OK:1/2024-06-10T03:00:00.000Z/09:00".
  split; [vm_compute; reflexivity|]. split; vm_compute; reflexivity.
Defined.

Lemma bookAppointment_sends_iff_witness :
  wire (bookAppointment (Mock.env Mock.natal) (Mock.config "NATAL" 2)
          (Mock.slot 1 "23:59:00") Mock.start).2
  = [{| request := POST "http://itep.test/api/vagas" "application/json"
                     "1/2024-06-10T03:00:00.000Z/23:59";
        reply := HttpReply 500 (Ok "internal error") |}]
  /\ (bookAppointment (Mock.env Mock.natal) (Mock.config "NATAL" 2)
        {| OrderID := 1; Date := "10/06/2024"; Time := "09:00:00" |} Mock.start).2
     = Mock.start.
Proof.
  split.
  - rewrite (proj2 (proj2 (bookAppointment_sends_iff (Mock.env Mock.natal)
                             (Mock.config "NATAL" 2) (Mock.slot 1 "23:59:00") Mock.start))
               (timeDate 2024 6 10 0 0 0 0) "1/2024-06-10T03:00:00.000Z/23:59").
    + vm_compute. reflexivity.
    + vm_compute. reflexivity.
    + vm_compute. lia.
    + vm_compute. reflexivity.
  - destruct (parseDate "10/06/2024") as [date|e] eqn:Hparse; [discriminate Hparse|].
    exact (proj1 (bookAppointment_sends_iff (Mock.env Mock.natal)
                    (Mock.config "NATAL" 2)
                    {| OrderID := 1; Date := "10/06/2024"; Time := "09:00:00" |}
                    Mock.start) e Hparse).
Defined.

(** ** The pool and the wire *)
Section PoolEffects.

Context {W : Type}.
Variable env : Env W.
Variable config : Config.

(** The goroutine of a reachable pool belongs to one of the input slots. *)
Lemma task_slot (slots : list TimeSlot) (st0 : State W) (p : Pool) (i : nat) (t : Task) :
  steps env config (spawn slots st0) p -> tasks p !! i = Some t -> timeSlot t ∈ slots.
Proof.
  intros Hreach Ht. pose proof (steps_inv env config _ _ _ Hreach) as Hinv.
  rewrite <- (inv_slots _ _ _ _ _ Hinv). apply list_elem_of_fmap.
  exists t. split; [reflexivity|]. eapply list_elem_of_lookup_2. exact Ht.
Qed.

(** Each call that has come back has put at most one exchange on the wire,
    the booking request of its slot. *)
Lemma steps_wire (slots : list TimeSlot) (st0 : State W) (p : Pool) :
  steps env config (spawn slots st0) p ->
  exists evs,
    wire (outer p) = wire st0 ++ evs
    /\ (length evs + tally callPending (tasks p) <= length slots)%nat
    /\ Forall (fun ev => exists slot, slot ∈ slots /\ bookingPostFor env config slot ev)
              evs.
Proof.
  intros Hreach. remember (spawn slots st0) as p0 eqn:Hp0.
  induction Hreach as [p|p q r Hpq IH Hqr]; subst.
  - exists []. unfold spawn. cbn [outer tasks]. rewrite app_nil_r, spawn_tally.
    cbn [callPending length]. split; [reflexivity|]. split; [lia|constructor].
  - destruct (IH eq_refl) as (evs & Hwire & Hlen & Hall). clear IH.
    destruct Hqr as [i q r Hstep]. apply stepTask_Move in Hstep as [Hlive Hmove].
    destruct Hmove as [t Ht Hpc Hsem ->|t response err st1 Ht Hpc Hb ->
                      |t msg st1 Ht Hpc Hb ->|t r' Ht Hpc ->]; cbn [outer tasks];
      [ pose proof (tally_insert callPending (tasks q) i t InFlight Ht) as Hw
      | pose proof (tally_insert callPending (tasks q) i t
                      (Storing {| response := response; err := err |}) Ht) as Hw
      | pose proof (tally_insert callPending (tasks q) i t Finished Ht) as Hw
      | pose proof (tally_insert callPending (tasks q) i t Finished Ht) as Hw ];
      rewrite Hpc in Hw; cbn [callPending] in Hw.
    1, 4: exists evs; split; [exact Hwire|]; split; [lia|exact Hall].
    all: destruct (bookAppointment_effect env config (timeSlot t) (outer q))
      as [Hsame|(ev & Hev & Hpost)]; rewrite Hb in *; cbn [snd] in *.
    1, 3: subst st1; exists evs; split; [exact Hwire|]; split; [lia|exact Hall].
    all: exists (evs ++ [ev]); rewrite Hev, Hwire, <- app_assoc.
    all: split; [reflexivity|]; rewrite length_app; cbn [length]; split; [lia|].
    all: apply Forall_app; split; [exact Hall|]; constructor; [|constructor].
    all: exists (timeSlot t); split; [|exact Hpost].
    all: eapply task_slot; eassumption.
Qed.

(** A crash is the panic of a call on one of the input slots. *)
Lemma steps_crashed (slots : list TimeSlot) (st0 : State W) (p : Pool) (msg : string) :
  steps env config (spawn slots st0) p -> crashed p = Some msg -> Exists panics slots.
Proof.
  intros Hreach Hcrash. inversion Hreach as [|p0 q r Hpq Hqr]; subst.
  - discriminate Hcrash.
  - destruct Hqr as [i q r Hstep]. apply stepTask_Move in Hstep as [Hlive Hmove].
    destruct Hmove as [t Ht Hpc Hsem ->|t response err st1 Ht Hpc Hb ->
                      |t msg' st1 Ht Hpc Hb ->|t r' Ht Hpc ->];
      try discriminate Hcrash.
    apply Exists_exists. exists (timeSlot t). split.
    + eapply task_slot; eassumption.
    + apply (bookAppointment_panics_iff env config _ (outer q)).
      exists msg'. rewrite Hb. reflexivity.
Qed.


(** X8. Whether [bookAppointmentsConcurrently] returns does not depend on
    the schedule: the process goes down, under every schedule, exactly when
    one of the slots makes [bookAppointment] panic. *)
Theorem bookAppointmentsConcurrently_panics_iff
    (sched : list nat) (slots : list TimeSlot) (st : State W) :
  (exists msg, (bookAppointmentsConcurrently env config sched slots st).1 = Panicked msg)
  <-> Exists panics slots.
Proof.
  split; [|apply bookAppointmentsConcurrently_panics].
  intros [msg Hp]. unfold bookAppointmentsConcurrently in Hp.
  destruct (pool_settles env config sched slots st) as [Hreach _].
  destruct (crashed _) as [msg'|] eqn:Hcrash; [|discriminate Hp].
  eapply steps_crashed; eassumption.
Qed.

End PoolEffects.

(** ** How many slots are selected *)

Lemma distinctTimes_times (l : list TimeSlot) :
  (list_to_set (Time <$> distinctTimes ∅ l) : gset string) = list_to_set (Time <$> l).
Proof.
  apply set_eq. intros t. rewrite !elem_of_list_to_set. split.
  - intros (s & -> & Hs)%list_elem_of_fmap. apply list_elem_of_fmap.
    exists s. split; [reflexivity|].
    eapply elem_of_sublist; [exact Hs|apply distinctTimes_sublist].
  - intros (s & -> & Hs)%list_elem_of_fmap.
    destruct (distinctTimes_cover l ∅ s Hs) as [Hin|Hin]; [|exact Hin].
    apply elem_of_empty in Hin. contradiction.
Qed.

Lemma distinctTimes_length (l : list TimeSlot) :
  length (distinctTimes ∅ l) = size (list_to_set (Time <$> l) : gset string).
Proof.
  rewrite <- distinctTimes_times, size_list_to_set by apply distinctTimes_NoDup.
  rewrite length_fmap. reflexivity.
Qed.

Section SelectionCount.

Variable config : Config.

(** X9. [selectUniqueSlots] returns as many slots as there are distinct
    time-of-day strings in its input, up to the configured count and no
    fewer; when it returns fewer than the count, every time-of-day of the
    input is the time of a selected slot. *)
Theorem selectUniqueSlots_count (allSlots : list TimeSlot) :
  length (selectUniqueSlots config allSlots)
  = Nat.min (Z.to_nat (AppointmentCount config))
            (size (list_to_set (Time <$> allSlots) : gset string))
  /\ (Z.of_nat (length (selectUniqueSlots config allSlots)) < AppointmentCount config ->
      forall s, s ∈ allSlots -> Time s ∈ Time <$> selectUniqueSlots config allSlots).
Proof.
  rewrite selectUniqueSlots_take, length_take, distinctTimes_length. split; [reflexivity|].
  intros Hfew s Hs. rewrite take_ge by (rewrite distinctTimes_length; lia).
  destruct (distinctTimes_cover allSlots ∅ s Hs) as [Hin|Hin]; [|exact Hin].
  apply elem_of_empty in Hin. contradiction.
Qed.

End SelectionCount.

Lemma selectUniqueSlots_count_witness :
  length (selectUniqueSlots (Mock.config "NATAL" 5)
            [Mock.slot 1 "09:00:00"; Mock.slot 2 "09:00:00"; Mock.slot 1 "10:00:00"])
  = 2%nat
  /\ "09:00:00" ∈ Time <$> selectUniqueSlots (Mock.config "NATAL" 5)
       [Mock.slot 1 "09:00:00"; Mock.slot 2 "09:00:00"; Mock.slot 1 "10:00:00"].
Proof.
  split; [vm_compute; reflexivity|].
  refine (proj2 (selectUniqueSlots_count (Mock.config "NATAL" 5)
                   [Mock.slot 1 "09:00:00"; Mock.slot 2 "09:00:00"; Mock.slot 1 "10:00:00"])
            _ (Mock.slot 2 "09:00:00") _).
  - vm_compute. reflexivity.
  - apply list_elem_of_further, list_elem_of_here.
Defined.

(** ** The collector and the wire *)

Lemma dateFound_spec (targetDateStr : string) (dates : list string) :
  dateFound targetDateStr dates = true <-> targetDateStr ∈ dates.
Proof.
  induction dates as [|dateStr rest IH]; cbn [dateFound].
  - split; [discriminate|]. intros H. apply elem_of_nil in H. contradiction.
  - destruct (String.eqb_spec dateStr targetDateStr) as [->|Hne].
    + split; [intros _; apply list_elem_of_here|reflexivity].
    + rewrite IH, elem_of_cons. split; [auto|]. intros [Heq|Hin]; [congruence|exact Hin].
Qed.

Lemma skipWeekend_valid (fuel : nat) :
  forall t, validDate t -> validDate (skipWeekend fuel t).
Proof.
  induction fuel as [|fuel IH]; intros t Ht; cbn [skipWeekend]; [exact Ht|].
  destruct (_ || _); [apply IH, addDay_valid, Ht|exact Ht].
Qed.

Section CollectEffects.

Context {W : Type}.
Variable env : Env W.
Variable config : Config.
Variable sortSlice : list TimeSlot -> list TimeSlot.

Lemma getNextWorkingDay_valid (st : State W) :
  validDate (now env (world st)) -> validDate (getNextWorkingDay env st).
Proof. intros Hnow. apply skipWeekend_valid, addDay_valid, Hnow. Qed.

(** The dates lookup is one exchange, and its result is the decoded body
    of the reply. *)
Lemma getAvailableDates_exchange (orderID : Z) (st : State W) :
  exists r,
    wire (getAvailableDates env config orderID st).2
      = wire st ++ [{| request := datesLookup config orderID; reply := r |}]
    /\ forall dates,
         (getAvailableDates env config orderID st).1 = Ok dates
         <-> exists status body,
               r = HttpReply status (Ok body) /\ unmarshalStrings env body = Ok dates.
Proof.
  unfold getAvailableDates, send, datesLookup.
  destruct (roundTrip env _ (world st)) as [[herr|status [body|rerr]] w1];
    cbn [fst snd wire].
  - eexists. split; [reflexivity|]. intros dates. split; [discriminate|].
    intros (s & b & H & _). discriminate H.
  - destruct (unmarshalStrings env body) as [ds|uerr] eqn:Hdecode; cbn [fst snd wire];
      (eexists; split; [reflexivity|]); intros dates; split.
    + intros [= <-]. eauto.
    + intros (s & b & [= <- <-] & Hb). congruence.
    + discriminate.
    + intros (s & b & [= <- <-] & Hb). congruence.
  - eexists. split; [reflexivity|]. intros dates. split; [discriminate|].
    intros (s & b & H & _). discriminate H.
Qed.

(** The times lookup is one exchange when the date parses, none otherwise. *)
Lemma getAvailableTimes_exchange (orderID : Z) (dateStr : string) (st : State W) :
  (forall e, parseDate dateStr = Err e ->
     (getAvailableTimes env config orderID dateStr st).2 = st)
  /\ (forall date, parseDate dateStr = Ok date ->
        exists r,
          wire (getAvailableTimes env config orderID dateStr st).2
          = wire st ++ [{| request := timesLookup config orderID date; reply := r |}]).
Proof.
  unfold getAvailableTimes, send, timesLookup. split.
  - intros e ->. reflexivity.
  - intros date ->. cbv zeta.
    destruct (roundTrip env _ (world st)) as [[herr|status [body|rerr]] w1];
      cbn [fst snd wire]; try (eexists; reflexivity).
    destruct (negb _); [eexists; reflexivity|].
    destruct (unmarshalStrings env body); eexists; reflexivity.
Qed.

Lemma collectOrder_wire (targetDateStr : string) (order : Order)
    (allSlots : list TimeSlot) (st : State W) :
  exists g,
    wire (collectOrder env config targetDateStr order allSlots st).2 = wire st ++ g
    /\ lookupsOf env config targetDateStr order g.
Proof.
  unfold collectOrder.
  destruct (getAvailableDates_exchange (ID order) st) as (r1 & Hwire1 & Hresult).
  destruct (getAvailableDates env config (ID order) st) as [[dates|e] st1];
    cbn [fst snd] in *.
  - destruct (proj1 (Hresult dates) eq_refl) as (status & body & -> & Hdecode).
    destruct (dateFound targetDateStr dates) eqn:Hfound; cbn [negb fst snd].
    + assert (offers env targetDateStr (HttpReply status (Ok body))) as Hoffers.
      { exists status, body, dates. split; [reflexivity|]. split; [exact Hdecode|].
        apply dateFound_spec, Hfound. }
      destruct (getAvailableTimes_exchange (ID order) targetDateStr st1) as [Hnone Hone].
      destruct (parseDate targetDateStr) as [date|perr] eqn:Hparse.
      * destruct (Hone date eq_refl) as [r2 Hwire2].
        eexists. split; [|exists (HttpReply status (Ok body)); right;
                          exists date, r2; split; [exact Hoffers|];
                          split; [exact Hparse|reflexivity]].
        destruct (getAvailableTimes env config (ID order) targetDateStr st1)
          as [[times|e] st2]; cbn [fst snd] in *;
          rewrite Hwire2, Hwire1, <- app_assoc; reflexivity.
      * specialize (Hnone perr eq_refl).
        eexists. split; [|exists (HttpReply status (Ok body)); left;
                          split; [reflexivity|right; eauto]].
        destruct (getAvailableTimes env config (ID order) targetDateStr st1)
          as [[times|e] st2]; cbn [fst snd] in *; subst st2; exact Hwire1.
    + eexists. split; [exact Hwire1|]. exists (HttpReply status (Ok body)). left.
      split; [reflexivity|]. left. intros (s & b & ds & [= <- <-] & Hb & Hin).
      apply dateFound_spec in Hin. congruence.
  - eexists. split; [exact Hwire1|]. exists r1. left. split; [reflexivity|]. left.
    intros (s & b & ds & -> & Hb & Hin).
    assert (Err e = Ok ds) as Habs by (apply Hresult; eauto). discriminate Habs.
Qed.

Lemma collectLoop_wire (targetDateStr : string) (orders : list Order) :
  forall (allSlots : list TimeSlot) (st : State W),
  exists groups,
    wire (collectLoop env config targetDateStr orders allSlots st).2
      = wire st ++ concat groups
    /\ Forall2 (lookupsOf env config targetDateStr) orders groups.
Proof.
  induction orders as [|order rest IH]; intros allSlots st; cbn [collectLoop].
  - exists []. cbn. rewrite app_nil_r. split; [reflexivity|constructor].
  - destruct (collectOrder_wire targetDateStr order allSlots st) as (g & Hg & Hlook).
    destruct (collectOrder env config targetDateStr order allSlots st) as [s1 st1].
    cbn [snd] in Hg. destruct (IH s1 st1) as (groups & Hgroups & Hall).
    exists (g :: groups). cbn [concat]. rewrite Hgroups, Hg, <- app_assoc.
    split; [reflexivity|constructor; assumption].
Qed.

Lemma lookupsOf_gets (targetDateStr : string) (orders : list Order)
    (groups : list (list Exchange)) :
  Forall2 (lookupsOf env config targetDateStr) orders groups ->
  Forall isGET (concat groups)
  /\ (length orders <= length (concat groups) <= 2 * length orders)%nat.
Proof.
  induction 1 as [|order g orders groups Hg Hrest [IHget IHlen]]; cbn [concat length].
  - split; [constructor|lia].
  - rewrite length_app.
    destruct Hg as [r1 [[-> _]|(date & r2 & _ & _ & ->)]]; cbn [length]; split; try lia.
    all: apply Forall_app; split; [|exact IHget].
    all: repeat constructor.
Qed.

(** X10. [collectAllTimeSlots] asks about the orders in the order it was
    given them, and about nothing else: for each order the dates lookup,
    followed by the times lookup exactly when the reply offered the target
    date; the target date is the one computed once at the start.  These are
    GET requests, at least one and at most two per order. *)
Theorem collectAllTimeSlots_wire (orders : list Order) (st : State W) :
  exists groups,
    wire (collectAllTimeSlots env config sortSlice orders st).2
      = wire st ++ concat groups
    /\ Forall2 (lookupsOf env config (formatISODate (getNextWorkingDay env st)))
               orders groups
    /\ Forall isGET (concat groups)
    /\ (length orders <= length (concat groups) <= 2 * length orders)%nat.
Proof.
  unfold collectAllTimeSlots.
  destruct (collectLoop_wire (formatISODate (getNextWorkingDay env st)) orders [] st)
    as (groups & Hwire & Hall).
  destruct (collectLoop env config _ orders [] st) as [allSlots st1].
  exists groups. split; [exact Hwire|]. split; [exact Hall|].
  eapply lookupsOf_gets, Hall.
Qed.

(** What one order adds is one slot per time string of some list. *)
Lemma collectOrder_slots (targetDateStr : string) (order : Order)
    (allSlots : list TimeSlot) (st : State W) :
  exists times,
    (collectOrder env config targetDateStr order allSlots st).1
    = allSlots ++ slotsOf (ID order) targetDateStr times.
Proof.
  unfold collectOrder.
  destruct (getAvailableDates env config (ID order) st) as [[dates|e] st1];
    [|exists []; cbn; now rewrite app_nil_r].
  destruct (negb _); [exists []; cbn; now rewrite app_nil_r|].
  destruct (getAvailableTimes env config (ID order) targetDateStr st1)
    as [[times|e] st2]; [|exists []; cbn; now rewrite app_nil_r].
  exists times. cbn [fst]. apply appendSlots_spec.
Qed.

Lemma collectLoop_slots (targetDateStr : string) (orders : list Order) :
  forall (allSlots : list TimeSlot) (st : State W) (slot : TimeSlot),
    slot ∈ (collectLoop env config targetDateStr orders allSlots st).1 ->
    slot ∈ allSlots
    \/ (Date slot = targetDateStr
        /\ exists order, order ∈ orders /\ OrderID slot = ID order).
Proof.
  induction orders as [|order rest IH]; intros allSlots st slot; cbn [collectLoop].
  - auto.
  - destruct (collectOrder_slots targetDateStr order allSlots st) as [times Htimes].
    destruct (collectOrder env config targetDateStr order allSlots st) as [s1 st1].
    cbn [fst] in Htimes. subst s1. intros Hin.
    destruct (IH _ _ _ Hin) as [Hacc|(Hdate & o & Ho & Hid)].
    + apply elem_of_app in Hacc as [Hacc|Hnew]; [left; exact Hacc|right].
      apply list_elem_of_fmap in Hnew as (timeStr & -> & _). cbn [Date OrderID].
      split; [reflexivity|]. exists order. split; [apply list_elem_of_here|reflexivity].
    + right. split; [exact Hdate|]. exists o.
      split; [apply list_elem_of_further, Ho|exact Hid].
Qed.

(** X11. Every slot [collectAllTimeSlots] returns carries the ID of one of
    the orders it was given and, as its date, the next working day printed
    as [2006-01-02]; when the clock shows a calendar date and that day lies
    in the years 0 to 9999, the slot's date parses back to that day, so
    [bookAppointment] never answers such a slot with "invalid date format". *)
Theorem collected_slots_carry_target_date
    (orders : list Order) (st : State W) (slot : TimeSlot) :
  SortSliceSpec sortSlice ->
  slot ∈ (collectAllTimeSlots env config sortSlice orders st).1.1 ->
  let target := getNextWorkingDay env st in
  Date slot = formatISODate target
  /\ (exists order, order ∈ orders /\ OrderID slot = ID order)
  /\ (validDate (now env (world st)) -> 0 <= Year target <= 9999 ->
      parseDate (Date slot)
        = Ok (timeDate (Year target) (Month target) (Day target) 0 0 0 0)
      /\ forall st' e,
           (bookAppointment env config slot st').1
           <> Returned (zeroBookingResponse, Some (Wrapped "invalid date format" e))).
Proof.
  intros Hsort Hin target. rewrite collectAllTimeSlots_sorted in Hin.
  assert (slot ∈ (collectLoop env config (formatISODate target) orders [] st).1)
    as Hloop.
  { destruct (Hsort (collectLoop env config (formatISODate target) orders [] st).1)
      as [Hperm _].
    rewrite <- Hperm. exact Hin. }
  apply collectLoop_slots in Hloop as [Hnil|[Hdate Horder]].
  { apply elem_of_nil in Hnil. contradiction. }
  split; [exact Hdate|]. split; [exact Horder|]. intros Hnow Hyear.
  assert (parseDate (Date slot)
          = Ok (timeDate (Year target) (Month target) (Day target) 0 0 0 0)) as Hparse.
  { rewrite Hdate. apply parseDate_formatISODate_valid; [|exact Hyear].
    apply getNextWorkingDay_valid, Hnow. }
  split; [exact Hparse|]. intros st' e. unfold bookAppointment, slicePrefix, send.
  rewrite Hparse.
  destruct (String.length (Time slot) <? 5)%nat; [discriminate|].
  destruct (marshalBookingRequest env _); [|discriminate].
  destruct (roundTrip env _ (world st')) as [[herr|status [body|rerr]] w1];
    cbn [fst]; try discriminate.
  destruct (negb _); [discriminate|].
  destruct (unmarshalBookingResponse env body); [|discriminate].
  destruct (negb _); discriminate.
Qed.

End CollectEffects.

Lemma collected_slots_carry_target_date_witness :
  Date (Mock.slot 1 "09:00:00") = "2024-06-10"
  /\ parseDate (Date (Mock.slot 1 "09:00:00")) = Ok (timeDate 2024 6 10 0 0 0 0).
Proof.
  pose proof (collected_slots_carry_target_date (Mock.env Mock.natal)
                (Mock.config "NATAL" 2) insertionSort [Mock.mkOrder 1 "NATAL"]
                Mock.start (Mock.slot 1 "09:00:00") insertionSort_spec) as H.
  destruct H as (Hdate & _ & Hparse).
  - vm_compute. apply list_elem_of_here.
  - split; [exact Hdate|]. apply Hparse.
    + vm_compute. intuition discriminate.
    + vm_compute. intuition discriminate.
Defined.

(** ** The run and the wire *)
Section RunEffects.

Context {W : Type}.
Variable env : Env W.
Variable config : Config.
Variable sortSlice : list TimeSlot -> list TimeSlot.

Lemma getAvailableOrders_exchange (st : State W) :
  exists ev,
    wire (getAvailableOrders env config st).2 = wire st ++ [ev] /\ isGET ev.
Proof.
  unfold getAvailableOrders, send.
  destruct (roundTrip env _ (world st)) as [[herr|status [body|rerr]] w1];
    cbn [fst snd wire]; try (eexists; split; [reflexivity|exact I]).
  destruct (unmarshalOrders env body); eexists; (split; [reflexivity|exact I]).
Qed.

Lemma collectAllTimeSlots_gets (orders : list Order) (st : State W) :
  exists evs,
    wire (collectAllTimeSlots env config sortSlice orders st).2 = wire st ++ evs
    /\ Forall isGET evs.
Proof.
  unfold collectAllTimeSlots.
  destruct (collectLoop_wire env config (formatISODate (getNextWorkingDay env st))
              orders [] st) as (groups & Hwire & Hall).
  destruct (collectLoop env config _ orders [] st) as [allSlots st1].
  exists (concat groups). split; [exact Hwire|].
  eapply (lookupsOf_gets env config), Hall.
Qed.

Lemma bookingPostFor_isPOST (slot : TimeSlot) (ev : Exchange) :
  bookingPostFor env config slot ev -> isPOST ev.
Proof. intros (req & body & Hreq & _). unfold isPOST. rewrite Hreq. exact I. Qed.

Lemma bookAppointmentsConcurrently_posts
    (sched : list nat) (slots : list TimeSlot) (st : State W) :
  exists evs,
    wire (bookAppointmentsConcurrently env config sched slots st).2 = wire st ++ evs
    /\ (length evs <= length slots)%nat
    /\ Forall isPOST evs.
Proof.
  unfold bookAppointmentsConcurrently.
  destruct (pool_settles env config sched slots st) as [Hreach _].
  destruct (steps_wire env config _ _ _ Hreach) as (evs & Hwire & Hlen & Hall).
  exists evs. split; [destruct (crashed _); exact Hwire|]. split; [lia|].
  eapply Forall_impl; [exact Hall|]. intros ev (slot & _ & Hpost).
  eapply bookingPostFor_isPOST, Hpost.
Qed.

Lemma printLinks_wire (successfulBookings : list BookingResponse) :
  forall st : State W, wire (printLinks successfulBookings st) = wire st.
Proof.
  induction successfulBookings as [|booking rest IH]; intros st; cbn [printLinks];
    [reflexivity|].
  rewrite IH. reflexivity.
Qed.

Lemma selectUniqueSlots_length (allSlots : list TimeSlot) :
  (length (selectUniqueSlots config allSlots) <= Z.to_nat (AppointmentCount config))%nat.
Proof. rewrite selectUniqueSlots_take, length_take. lia. Qed.

(** X12. Whatever the service answers and however the goroutines are
    scheduled, a run of [runScheduling] first makes its lookups, all of them
    GET requests and the first of them the orders lookup, and then at most
    [AppointmentCount] booking POSTs; it never books more than the
    configured count. *)
Theorem runScheduling_wire (sched : list nat) (st : State W) :
  exists gets posts,
    wire (runScheduling env config sortSlice sched st).2 = wire st ++ gets ++ posts
    /\ (1 <= length gets)%nat
    /\ Forall isGET gets
    /\ Forall isPOST posts
    /\ (length posts <= Z.to_nat (AppointmentCount config))%nat.
Proof.
  unfold runScheduling.
  destruct (getAvailableOrders_exchange st) as (ev & Hw0 & Hget0).
  assert (forall st1 : State W, wire st1 = wire st ++ [ev] ->
            exists gets posts,
              wire st1 = wire st ++ gets ++ posts
              /\ (1 <= length gets)%nat /\ Forall isGET gets /\ Forall isPOST posts
              /\ (length posts <= Z.to_nat (AppointmentCount config))%nat) as Hstop0.
  { intros st1 H. exists [ev], []. rewrite app_nil_r.
    split; [exact H|]. cbn [length]. repeat split; try lia; repeat constructor.
    exact Hget0. }
  destruct (getAvailableOrders env config st) as [[orders|e] st1]; cbn [snd] in Hw0;
    [|apply Hstop0, Hw0].
  destruct (length _ =? 0)%nat; [apply Hstop0, Hw0|].
  destruct (collectAllTimeSlots_gets (targetOrdersLoop config orders []) st1)
    as (evs & Hw1 & Hget1).
  assert (forall st2 : State W, wire st2 = wire st1 ++ evs ->
            exists gets posts,
              wire st2 = wire st ++ gets ++ posts
              /\ (1 <= length gets)%nat /\ Forall isGET gets /\ Forall isPOST posts
              /\ (length posts <= Z.to_nat (AppointmentCount config))%nat) as Hstop1.
  { intros st2 H. exists (ev :: evs), []. rewrite app_nil_r, H, Hw0, <- app_assoc.
    split; [reflexivity|]. cbn [length]. repeat split; try lia; repeat constructor;
      assumption. }
  destruct (collectAllTimeSlots env config sortSlice _ st1) as [[allSlots [e|]] st2];
    cbn [snd] in Hw1; [apply Hstop1, Hw1|].
  destruct (length allSlots =? 0)%nat; [apply Hstop1, Hw1|].
  destruct (length (selectUniqueSlots config allSlots) =? 0)%nat; [apply Hstop1, Hw1|].
  destruct (bookAppointmentsConcurrently_posts sched (selectUniqueSlots config allSlots) st2)
    as (posts & Hw2 & Hlen & Hpost).
  pose proof (selectUniqueSlots_length allSlots) as Hsel.
  assert (forall st3 : State W, wire st3 = wire st2 ++ posts ->
            exists gets posts,
              wire st3 = wire st ++ gets ++ posts
              /\ (1 <= length gets)%nat /\ Forall isGET gets /\ Forall isPOST posts
              /\ (length posts <= Z.to_nat (AppointmentCount config))%nat) as Hstop2.
  { intros st3 H. exists (ev :: evs), posts.
    rewrite H, Hw1, Hw0, <- !app_assoc.
    split; [reflexivity|]. cbn [length]. repeat split; try lia; try assumption.
    constructor; assumption. }
  destruct (bookAppointmentsConcurrently env config sched _ st2)
    as [[bookingResults|msg] st3]; cbn [snd] in Hw2; [|apply Hstop2, Hw2].
  destruct (tallyLoop bookingResults 0 []) as [successCount successfulBookings].
  destruct (successCount =? 0); [apply Hstop2, Hw2|].
  apply Hstop2. cbn [snd]. rewrite printLinks_wire. exact Hw2.
Qed.

(** X13. With a configured count of zero or less no run can succeed:
    [runScheduling] makes no booking request, prints nothing, and returns
    one of its errors, never "all booking attempts failed", since the
    selector hands it no slot. *)
Theorem runScheduling_needs_positive_count (sched : list nat) (st : State W) :
  AppointmentCount config <= 0 ->
  exists (f : Fatal) (gets : list Exchange),
    (runScheduling env config sortSlice sched st).1 = Returned (Some (fatalError f))
    /\ f <> AllBookingsFailed
    /\ wire (runScheduling env config sortSlice sched st).2 = wire st ++ gets
    /\ Forall isGET gets
    /\ stdout (runScheduling env config sortSlice sched st).2 = stdout st.
Proof.
  intros Hcount. unfold runScheduling.
  destruct (getAvailableOrders_exchange st) as (ev & Hw0 & Hget0).
  pose proof (getAvailableOrders_stdout env config st) as Hs0.
  destruct (getAvailableOrders env config st) as [[orders|e] st1]; cbn [snd] in Hw0, Hs0.
  2: { exists (FetchFailed e), [ev]. cbn [fst snd fatalError].
       repeat split; try assumption; [discriminate|repeat constructor; assumption]. }
  destruct (length _ =? 0)%nat.
  { exists NoOrdersForLocation, [ev]. cbn [fst snd fatalError].
    repeat split; try assumption; [discriminate|repeat constructor; assumption]. }
  destruct (collectAllTimeSlots_gets (targetOrdersLoop config orders []) st1)
    as (evs & Hw1 & Hget1).
  pose proof (collectAllTimeSlots_stdout env config sortSlice
                (targetOrdersLoop config orders []) st1) as Hs1.
  pose proof (collectAllTimeSlots_nil_error env config sortSlice
                (targetOrdersLoop config orders []) st1) as Hnil.
  destruct (collectAllTimeSlots env config sortSlice _ st1) as [[allSlots [e|]] st2];
    cbn [fst snd] in Hw1, Hs1, Hnil; [discriminate Hnil|].
  assert (wire st2 = wire st ++ ev :: evs) as Hw2
    by (rewrite Hw1, Hw0, <- app_assoc; reflexivity).
  assert (Forall isGET (ev :: evs)) as Hgets by (constructor; assumption).
  assert (stdout st2 = stdout st) as Hs2 by congruence.
  destruct (length allSlots =? 0)%nat.
  { exists NoTimeSlots, (ev :: evs). cbn [fst snd fatalError].
    repeat split; try assumption. discriminate. }
  rewrite (selectUniqueSlots_no_room config allSlots Hcount). cbn [length Nat.eqb].
  exists NoUniqueSlots, (ev :: evs). cbn [fst snd fatalError].
  repeat split; try assumption. discriminate.
Qed.

(** X14. Once the orders are fetched, every further request of a run
    concerns an order at the configured location: the lookups are those of
    the fetched orders whose location name equals the configured one, in
    the order fetched, and every booking POST is the request of a slot that
    carries the ID of such an order and the target date. *)
Theorem runScheduling_books_only_location
    (sched : list nat) (st st1 : State W) (orders : list Order) :
  SortSliceSpec sortSlice ->
  getAvailableOrders env config st = (Ok orders, st1) ->
  let targetDateStr := formatISODate (getNextWorkingDay env st1) in
  exists groups posts,
    wire (runScheduling env config sortSlice sched st).2
      = wire st1 ++ concat groups ++ posts
    /\ Forall2 (lookupsOf env config targetDateStr)
               (filter (atLocation config) orders) groups
    /\ Forall (fun ev => exists slot order,
                 bookingPostFor env config slot ev
                 /\ order ∈ orders
                 /\ atLocation config order
                 /\ OrderID slot = ID order
                 /\ Date slot = targetDateStr) posts.
Proof.
  intros Hsort Hfetch targetDateStr. unfold runScheduling. rewrite Hfetch.
  rewrite targetOrdersLoop_spec. cbn [app].
  set (targetOrders := filter (atLocation config) orders).
  destruct (length targetOrders =? 0)%nat eqn:Hempty.
  { apply Nat.eqb_eq, length_zero_iff_nil in Hempty. rewrite Hempty.
    exists [], []. cbn. rewrite app_nil_r. repeat split; constructor. }
  unfold collectAllTimeSlots. fold targetDateStr.
  destruct (collectLoop_wire env config targetDateStr targetOrders [] st1)
    as (groups & Hw1 & Hall).
  pose proof (collectLoop_slots env config targetDateStr targetOrders [] st1) as Hslots.
  destruct (collectLoop env config targetDateStr targetOrders [] st1)
    as [collected st2]; cbn [fst snd] in Hw1, Hslots.
  assert (forall slot, slot ∈ selectUniqueSlots config (sortSlice collected) ->
            exists order, order ∈ orders /\ atLocation config order
                          /\ OrderID slot = ID order /\ Date slot = targetDateStr)
    as Hselected.
  { intros slot Hin. rewrite selectUniqueSlots_take in Hin.
    apply elem_of_take in Hin as (i & Hin & _). apply list_elem_of_lookup_2 in Hin.
    eapply elem_of_sublist in Hin; [|apply distinctTimes_sublist].
    destruct (Hsort collected) as [Hperm _]. rewrite Hperm in Hin.
    destruct (Hslots slot Hin) as [Hnil|(Hdate & order & Horder & Hid)].
    { apply elem_of_nil in Hnil. contradiction. }
    apply list_elem_of_filter in Horder as [Hloc Horder]. eauto 6. }
  assert (forall st3 : State W, wire st3 = wire st2 ->
            exists groups posts,
              wire st3 = wire st1 ++ concat groups ++ posts
              /\ Forall2 (lookupsOf env config targetDateStr) targetOrders groups
              /\ Forall (fun ev => exists slot order,
                           bookingPostFor env config slot ev
                           /\ order ∈ orders
                           /\ atLocation config order
                           /\ OrderID slot = ID order
                           /\ Date slot = targetDateStr) posts) as Hstop1.
  { intros st3 H. exists groups, []. rewrite app_nil_r, H.
    split; [exact Hw1|]. split; [exact Hall|constructor]. }
  destruct (length (sortSlice collected) =? 0)%nat; [apply Hstop1; reflexivity|].
  destruct (length (selectUniqueSlots config (sortSlice collected)) =? 0)%nat;
    [apply Hstop1; reflexivity|]. clear Hstop1.
  assert (exists posts,
            wire (bookAppointmentsConcurrently env config sched
                    (selectUniqueSlots config (sortSlice collected)) st2).2
              = wire st2 ++ posts
            /\ Forall (fun ev => exists slot order,
                         bookingPostFor env config slot ev
                         /\ order ∈ orders
                         /\ atLocation config order
                         /\ OrderID slot = ID order
                         /\ Date slot = targetDateStr) posts) as (posts & Hw2 & Hposts).
  { unfold bookAppointmentsConcurrently.
    destruct (pool_settles env config sched
                (selectUniqueSlots config (sortSlice collected)) st2) as [Hreach _].
    destruct (steps_wire env config _ _ _ Hreach) as (evs & Hwire & _ & Hevs).
    exists evs. split; [destruct (crashed _); exact Hwire|].
    eapply Forall_impl; [exact Hevs|]. intros ev (slot & Hin & Hpost).
    destruct (Hselected slot Hin) as (order & Horder & Hloc & Hid & Hdate).
    exists slot, order. auto. }
  assert (forall st3 : State W, wire st3 = wire st2 ++ posts ->
            exists groups posts,
              wire st3 = wire st1 ++ concat groups ++ posts
              /\ Forall2 (lookupsOf env config targetDateStr) targetOrders groups
              /\ Forall (fun ev => exists slot order,
                           bookingPostFor env config slot ev
                           /\ order ∈ orders
                           /\ atLocation config order
                           /\ OrderID slot = ID order
                           /\ Date slot = targetDateStr) posts) as Hstop2.
  { intros st3 H. exists groups, posts. rewrite H, Hw1, <- app_assoc.
    split; [reflexivity|]. split; [exact Hall|exact Hposts]. }
  destruct (bookAppointmentsConcurrently env config sched _ st2)
    as [[bookingResults|msg] st3]; cbn [snd] in Hw2; [|apply Hstop2, Hw2].
  destruct (tallyLoop bookingResults 0 []) as [successCount successfulBookings].
  destruct (successCount =? 0); [apply Hstop2, Hw2|].
  apply Hstop2. cbn [snd]. rewrite printLinks_wire. exact Hw2.
Qed.

End RunEffects.

Lemma runScheduling_needs_positive_count_witness :
  exists f : Fatal,
    (runScheduling (Mock.env Mock.natal) (Mock.config "NATAL" 0) insertionSort
       [] Mock.start).1 = Returned (Some (fatalError f)).
Proof.
  destruct (runScheduling_needs_positive_count (Mock.env Mock.natal)
              (Mock.config "NATAL" 0) insertionSort [] Mock.start)
    as (f & gets & Hrun & _).
  - simpl. lia.
  - exists f. exact Hrun.
Defined.

Lemma runScheduling_books_only_location_witness :
  exists groups posts,
    wire (runScheduling (Mock.env Mock.natal) (Mock.config "NATAL" 2) insertionSort
            [] Mock.start).2
    = wire (getAvailableOrders (Mock.env Mock.natal) (Mock.config "NATAL" 2)
              Mock.start).2
      ++ concat groups ++ posts
    /\ Forall2 (lookupsOf (Mock.env Mock.natal) (Mock.config "NATAL" 2) "2024-06-10")
               [Mock.mkOrder 1 "NATAL"] groups.
Proof.
  destruct (runScheduling_books_only_location (Mock.env Mock.natal)
              (Mock.config "NATAL" 2) insertionSort [] Mock.start
              (getAvailableOrders (Mock.env Mock.natal) (Mock.config "NATAL" 2)
                 Mock.start).2
              [Mock.mkOrder 1 "NATAL"; Mock.mkOrder 2 "OTHER"])
    as (groups & posts & Hwire & Hall & _).
  - exact insertionSort_spec.
  - vm_compute. reflexivity.
  - exists groups, posts. split; [exact Hwire|exact Hall].
Defined.
